(** * MouserBOMTool: a shallow embedding of [get_mouser_prices.py]

    The development follows the source file top to bottom: the Python
    values and built-ins the program relies on, then [APIManager], then
    [DataProcessor].  Effects are explicit: a function that logs, sleeps
    or talks to the network returns the events it produced, and a
    function that can raise returns a [result]. *)

From Stdlib Require Import ZArith List String Ascii Bool Lia Floats.
From Stdlib Require Import Sorting.Sorted Sorting.Permutation.
Import ListNotations.

Local Open Scope string_scope.
Local Open Scope list_scope.
Local Open Scope Z_scope.

(* ================================================================== *)
(** * Python values and built-ins                                      *)
(* ================================================================== *)

(** ** Exceptions

    Only the class of an exception matters to the control flow of the
    program; messages are kept out of the model, but for what [print]
    does with a line that quotes one ([print_error]).  [Exception cause] is
    the generic [Exception] that [get_api_key] raises around another
    one, and [OtherError] stands for any exception class raised by a
    collaborator (the YAML loader, the operating system) that the
    source never names. *)
Inductive exn : Type :=
| ValueError
| IndexError
| KeyError
| ZeroDivisionError
| OverflowError
| AttributeError
| TypeError
| FileNotFoundError
| HTTPError
| OtherError
| Exception (cause : exn).

Inductive result (A : Type) : Type :=
| Ok (a : A)
| Raise (e : exn).
Arguments Ok {A} a.
Arguments Raise {A} e.

Definition bind {A B : Type} (m : result A) (k : A -> result B) : result B :=
  match m with
  | Ok a => k a
  | Raise e => Raise e
  end.

Notation "x <- m ;; k" := (bind m (fun x => k))
  (at level 61, m at next level, right associativity).
Notation "' p <- m ;; k" := (bind m (fun x => let p := x in k))
  (at level 61, p pattern, m at next level, right associativity).

(** ** Strings

    A Python [str] is modelled as a [string] whose characters are the
    code points below 256. *)

Definition code (c : ascii) : N := N_of_ascii c.

(** [str.isspace] on one code point below 256. *)
Definition isspace (c : ascii) : bool :=
  let n := code c in
  (((9 <=? n) && (n <=? 13)) || ((28 <=? n) && (n <=? 32))
   || (n =? 133) || (n =? 160))%N.

(** [str.lower] on one code point below 256. *)
Definition lower_char (c : ascii) : ascii :=
  let n := code c in
  if (((65 <=? n) && (n <=? 90))
      || ((192 <=? n) && (n <=? 222) && negb (n =? 215)))%N
  then ascii_of_N (n + 32) else c.

Fixpoint lower (s : string) : string :=
  match s with
  | EmptyString => EmptyString
  | String c s' => String (lower_char c) (lower s')
  end.

Fixpoint lstrip_by (drop : ascii -> bool) (s : string) : string :=
  match s with
  | EmptyString => EmptyString
  | String c s' => if drop c then lstrip_by drop s' else s
  end.

Fixpoint rstrip_by (drop : ascii -> bool) (s : string) : string :=
  match s with
  | EmptyString => EmptyString
  | String c s' =>
      match rstrip_by drop s' with
      | EmptyString => if drop c then EmptyString else String c EmptyString
      | t => String c t
      end
  end.

(** [s.strip()] *)
Definition strip (s : string) : string := rstrip_by isspace (lstrip_by isspace s).

(** [sub in s] *)
Fixpoint contains (sub s : string) : bool :=
  prefix sub s ||
  match s with
  | EmptyString => false
  | String _ s' => contains sub s'
  end.

(** [s.split(sep)] for a one-character separator: never the empty list. *)
Fixpoint split (sep : ascii) (s : string) : list string :=
  match s with
  | EmptyString => [EmptyString]
  | String c s' =>
      if Ascii.eqb c sep then EmptyString :: split sep s'
      else match split sep s' with
           | [] => [String c EmptyString]
           | seg :: segs => String c seg :: segs
           end
  end.

(** [s.replace(old, new)] for a non-empty [old]: the occurrences are
    taken left to right and do not overlap.  [skip] counts the
    characters of the current occurrence still to be dropped. *)
Fixpoint replace_from (old new : string) (skip : nat) (s : string) : string :=
  match s with
  | EmptyString => EmptyString
  | String c s' =>
      match skip with
      | S k => replace_from old new k s'
      | O =>
          if prefix old s
          then (new ++ replace_from old new (Nat.pred (String.length old)) s')%string
          else String c (replace_from old new O s')
      end
  end.

(** With an empty [old], Python puts [new] before every character and
    at the end. *)
Fixpoint replace_empty (new s : string) : string :=
  match s with
  | EmptyString => new
  | String c s' => (new ++ String c (replace_empty new s'))%string
  end.

Definition replace (old new s : string) : string :=
  match old with
  | EmptyString => replace_empty new s
  | _ => replace_from old new O s
  end.

(** ** Lists *)

(** [l[-1]] *)
Fixpoint index_last {A : Type} (l : list A) : result A :=
  match l with
  | [] => Raise IndexError
  | [x] => Ok x
  | _ :: l' => index_last l'
  end.

(** ** Dictionaries

    A [dict] keeps its keys in insertion order and stores one value per
    key; assigning to a present key replaces the value where the key
    already stands.  It is modelled as an association list, so that the
    uniqueness of the keys is a property to prove rather than one the
    type gives away. *)
Class Key (K : Type) : Type := {
  key_eqb : K -> K -> bool;
  key_eqb_spec : forall a b : K, reflect (a = b) (key_eqb a b)
}.

#[export] Instance Key_Z : Key Z :=
  {| key_eqb := Z.eqb; key_eqb_spec := Z.eqb_spec |}.
#[export] Instance Key_string : Key string :=
  {| key_eqb := String.eqb; key_eqb_spec := String.eqb_spec |}.

Definition dict (K V : Type) : Type := list (K * V).

Definition keys {K V : Type} (d : dict K V) : list K := map fst d.

(** [d.get(k)]: [None] when the key is absent. *)
Fixpoint dict_get {K V : Type} `{Key K} (d : dict K V) (k : K) : option V :=
  match d with
  | [] => None
  | (k', v) :: d' => if key_eqb k k' then Some v else dict_get d' k
  end.

(** [k in d] *)
Definition dict_mem {K V : Type} `{Key K} (d : dict K V) (k : K) : bool :=
  match dict_get d k with Some _ => true | None => false end.

(** [d[k]] *)
Definition dict_item {K V : Type} `{Key K} (d : dict K V) (k : K) : result V :=
  match dict_get d k with
  | Some v => Ok v
  | None => Raise KeyError
  end.

(** [d[k] = v] *)
Fixpoint dict_set {K V : Type} `{Key K} (d : dict K V) (k : K) (v : V) : dict K V :=
  match d with
  | [] => [(k, v)]
  | (k', v') :: d' =>
      if key_eqb k k' then (k', v) :: d' else (k', v') :: dict_set d' k v
  end.

(** ** Numbers

    An [int] is a [Z]; [//] and [%] round towards minus infinity, as
    [Z.div] and [Z.modulo] do, and raise on a zero divisor.  A [float]
    is a binary64 number.  An [int] meeting a [float] in an arithmetic
    operation is first converted, to the nearest float with ties to
    even, and the conversion raises when that would be an infinity. *)
Definition floordiv (a b : Z) : result Z :=
  if b =? 0 then Raise ZeroDivisionError else Ok (a / b).

Definition modulo (a b : Z) : result Z :=
  if b =? 0 then Raise ZeroDivisionError else Ok (a mod b).

Definition float_of_int (z : Z) : result float :=
  let f := SF2Prim (binary_normalize prec emax z 0 false) in
  if is_infinity f then Raise OverflowError else Ok f.

(** [n * x] for an int [n] and a float [x] *)
Definition int_mul_float (n : Z) (x : float) : result float :=
  fn <- float_of_int n ;; Ok (fn * x)%float.

(** [x * n] for a float [x] and an int [n] *)
Definition float_mul_int (x : float) (n : Z) : result float :=
  fn <- float_of_int n ;; Ok (x * fn)%float.

(** [sorted(l, reverse=True)] on ints, by insertion. *)
Fixpoint insert_desc (q : Z) (l : list Z) : list Z :=
  match l with
  | [] => [q]
  | x :: l' => if x <? q then q :: l else x :: insert_desc q l'
  end.

Definition sorted_reverse (l : list Z) : list Z := fold_right insert_desc [] l.

(** ** JSON documents and truth values

    What [response.json()] returns; [JNull] is Python's [None]. *)
#[local] Set Warnings "-register-all".
Inductive json : Type :=
| JNull
| JBool (b : bool)
| JInt (z : Z)
| JFloat (x : float)
| JStr (s : string)
| JList (items : list json)
| JDict (members : list (string * json)).

(** [bool(j)], the test behind [if result:]. *)
Definition truthy (j : json) : bool :=
  match j with
  | JNull => false
  | JBool b => b
  | JInt z => negb (z =? 0)
  | JFloat x => negb (x =? 0)%float
  | JStr s => negb (s =? "")%string
  | JList items => match items with [] => false | _ => true end
  | JDict members => match members with [] => false | _ => true end
  end.

(** ** The outside world

    Everything the program does to its environment is an [event]; a
    function returns the events it caused, oldest first. *)
Inductive message : Type :=
| MsgHTTPError (part_number : string)    (* HTTP error occurred while searching for .. *)
| MsgRequestError (part_number : string) (* Error occurred while searching for .. *)
| MsgSearching (part_number : string)    (* Searching for part number: .. *)
| MsgRateLimit (seconds : Z)             (* Rate limit reached. Waiting for .. seconds *)
| MsgSearchFailed (part_number : string) (* Error searching for part number .. *)
| MsgUrlError (url : string)             (* Error processing URL .. *)
| MsgNoColumn                            (* .. does not have a 'Datasheet' column. *)
| MsgNoUrls                              (* Error: No URLs extracted from the CSV file. *)
| MsgNotMouser                           (* The following URLs are not from Mouser .. *)
| MsgUrlErrors                           (* The following URLs caused errors .. *)
| MsgApiErrors                           (* The following part numbers caused errors .. *)
| MsgLine (text : string).               (* a URL, a part number or an empty line *)

Record request : Type := {
  apiKey : string;
  mouserPartNumber : string;
  partSearchOptions : string
}.

Inductive event : Type :=
| Log (m : message)
| Post (r : request)
| Sleep (seconds : Z)
| OpenFile (name : string).

(** What [requests.post] does with one request: it raises (no
    connection, time-out, ...) or hands back a response with a status
    code and a body, which is a JSON document or not. *)
Inductive reply : Type :=
| NoResponse
| Response (status_code : Z) (body : option json).

(** The network as a run meets it.  [post n req] is what it does with
    the [n]-th request of the run.  [print_error n req] is what
    [print] does with the line that a handler of [search_part_number]
    writes when that request fails: the line quotes the exception, whose
    text is the library's and the server's, and [print] raises the
    exception [e] when the console does not take the line ([Some e]). *)
Record network : Type := {
  post :> nat -> request -> reply;
  print_error : nat -> request -> option exn
}.

(** [mouser_api_keys.yaml] as [open] and [yaml.safe_load] see it. *)
Inductive yaml_value : Type :=
| YStr (s : string)
| YNotStr.

Inductive yaml_document : Type :=
| YNone
| YMapping (entries : dict string yaml_value)
| YNotMapping.

Inductive config_file : Type :=
| Missing
| Unreadable
| Malformed
| Loaded (doc : yaml_document).

(** The result of [urlparse]. *)
Record ParseResult : Type := {
  scheme : string;
  netloc : string;
  path : string;
  params : string;
  query : string;
  fragment : string
}.

(* ================================================================== *)
(** * class APIManager                                                 *)
(* ================================================================== *)

Module APIManager.

(** The [with open(...)] block of [get_api_key]. *)
Definition read_config (cfg : config_file) : result string :=
  match cfg with
  | Missing => Raise FileNotFoundError
  | Unreadable => Raise OtherError
  | Malformed => Raise OtherError
  | Loaded YNone => Raise ValueError
  | Loaded YNotMapping => Raise AttributeError
  | Loaded (YMapping entries) =>
      match dict_get entries "search_api_key" with
      | None => Ok (strip "")
      | Some (YStr s) => Ok (strip s)
      | Some YNotStr => Raise AttributeError
      end
  end.

(** [not api_key] for an [Optional[str]]. *)
Definition unset (api_key : option string) : bool :=
  match api_key with
  | None => true
  | Some s => (s =? "")%string
  end.

(** The [try] block of [get_api_key]. *)
Definition get_api_key_try (environ : option string) (cfg : config_file)
  : result string * list event :=
  let '(api_key, events) :=
    if unset environ
    then (k <- read_config cfg ;; Ok (Some k), [OpenFile "mouser_api_keys.yaml"])
    else (Ok environ, [])
  in
  (k <- api_key ;;
   match k with
   | Some s => if (s =? "")%string then Raise ValueError else Ok s
   | None => Raise ValueError
   end, events).

(** [get_api_key]: the [try] block under its two handlers.  [environ]
    is [os.environ.get('MOUSER_SEARCH_API_KEY')]. *)
Definition get_api_key (environ : option string) (cfg : config_file)
  : result string * list event :=
  let '(r, events) := get_api_key_try environ cfg in
  (match r with
   | Ok api_key => Ok api_key
   | Raise FileNotFoundError => Raise FileNotFoundError
   | Raise e => Raise (Exception e)
   end, events).

(** [response.raise_for_status()] *)
Definition raise_for_status (status_code : Z) : result unit :=
  if (400 <=? status_code) && (status_code <? 600) then Raise HTTPError else Ok tt.

(** The [try] block of [search_part_number], given the network's reply. *)
Definition search_part_number_try (r : reply) : result json :=
  match r with
  | NoResponse => Raise OtherError
  | Response status_code body =>
      _ <- raise_for_status status_code ;;
      match body with
      | Some j => Ok j
      | None => Raise OtherError
      end
  end.

(** A handler of [search_part_number]: it logs a line about the
    exception and returns [None].  An exception that [print] raises on
    the line is raised inside the handler, where no clause of the [try]
    statement catches it: it leaves [search_part_number]. *)
Definition handler (printed : option exn) (line : message)
  : result json * list event :=
  match printed with
  | None => (Ok JNull, [Log line])
  | Some e => (Raise e, [])
  end.

(** [search_part_number]: the [try] block under its two handlers.  [n]
    is the number of requests sent before this one. *)
Definition search_part_number (net : network) (n : nat)
  (part_number api_key option : string) : result json * list event :=
  let req := {| apiKey := api_key; mouserPartNumber := part_number;
                partSearchOptions := option |} in
  match search_part_number_try (net n req) with
  | Ok j => (Ok j, [Post req])
  | Raise HTTPError =>
      let '(r, events) := handler (print_error net n req) (MsgHTTPError part_number) in
      (r, Post req :: events)
  | Raise _ =>
      let '(r, events) := handler (print_error net n req) (MsgRequestError part_number) in
      (r, Post req :: events)
  end.

End APIManager.

(* ================================================================== *)
(** * class DataProcessor                                              *)
(* ================================================================== *)

(** One entry of a part's ['PriceBreaks'] list. *)
Record price_break : Type := {
  Quantity : Z;
  Price : string
}.

(** A CSV file as [csv.DictReader] presents it: the header ([None] for
    a file with no line), and for every row its ['Datasheet'] cell
    ([None] when the row is too short to have one). *)
Record csv_file : Type := {
  fieldnames : option (list string);
  Datasheet : list (option string)
}.

(** What the API answers for a part number, as far as
    [extract_prices_and_save_to_csv] reads it: a field is [None] when
    the response has no such key, which [.get] answers with its
    default. *)
Record part : Type := {
  PriceBreaks : option (list price_break)
}.

Record search_results : Type := {
  Parts : option (list part)
}.

Record search_response : Type := {
  SearchResults : option search_results
}.

(** A row of [csv.DictReader], column name to cell, for rows that are
    as long as the header; and the BOM file: its header ([None] for a
    file with no line) and its rows. *)
Definition row : Type := dict string string.

Record bom_file : Type := {
  header : option (list string);
  rows : list row
}.

Module DataProcessor.

(** [log_message] *)
Definition log_message (m : message) : list event := [Log m].

(** ** [extract_urls] *)
Fixpoint datasheet_urls (cells : list (option string)) : result (list string) :=
  match cells with
  | [] => Ok []
  | None :: _ => Raise AttributeError
  | Some cell :: rest =>
      if (strip cell =? "")%string then datasheet_urls rest
      else urls <- datasheet_urls rest ;; Ok (strip cell :: urls)
  end.

Definition extract_urls (file : csv_file) : result (list string) * list event :=
  match fieldnames file with
  | None => (Raise TypeError, [])
  | Some names =>
      if existsb (String.eqb "Datasheet") names
      then (datasheet_urls (Datasheet file), [])
      else (Ok [], log_message MsgNoColumn)
  end.

(** ** [extract_part_numbers_from_urls] *)
Section Urls.

(** [urllib.parse.urlparse], which raises on some strings. *)
Variable urlparse : string -> result ParseResult.

Record url_lists : Type := {
  mouser_part_numbers : list string;
  non_mouser_urls : list string;
  error_urls : list string
}.

(** The [try] block of the loop body: the part number of a Mouser URL,
    [None] for any other URL. *)
Definition part_number_of_url (url : string) : result (option string) :=
  parsed_url <- urlparse url ;;
  let domain := lower (netloc parsed_url) in
  if contains "mouser.com" domain
  then part_number <- index_last (split "/" (path parsed_url)) ;;
       Ok (Some (strip part_number))
  else Ok None.

(** One turn of [for url in urls]. *)
Definition extract_one (acc : url_lists * list event) (url : string)
  : url_lists * list event :=
  let '(lists, events) := acc in
  match part_number_of_url url with
  | Ok (Some part_number) =>
      ({| mouser_part_numbers := mouser_part_numbers lists ++ [part_number];
          non_mouser_urls := non_mouser_urls lists;
          error_urls := error_urls lists |}, events)
  | Ok None =>
      ({| mouser_part_numbers := mouser_part_numbers lists;
          non_mouser_urls := non_mouser_urls lists ++ [url];
          error_urls := error_urls lists |}, events)
  | Raise _ =>
      ({| mouser_part_numbers := mouser_part_numbers lists;
          non_mouser_urls := non_mouser_urls lists;
          error_urls := error_urls lists ++ [url] |},
       events ++ log_message (MsgUrlError url))
  end.

Definition extract_part_numbers_from_urls (urls : list string)
  : url_lists * list event :=
  fold_left extract_one urls
    ({| mouser_part_numbers := []; non_mouser_urls := []; error_urls := [] |}, []).

End Urls.

(** ** [read_csv_and_search_parts] *)

(** The variables of the [while] loop, and [sent], the number of
    requests the run has sent so far. *)
Record loop_state : Type := {
  index : nat;
  results : dict string json;
  api_error_parts : list string;
  sent : nat
}.

(** The three ways one turn of the loop can go. *)
Inductive outcome : Type :=
| Success (part_number : string) (result : json)
| SoftFailure (part_number : string)
| HardFailure (part_number : string).

Definition wait_time : Z := 15.

(** The body of the [while] loop, given what the call to
    [search_part_number] returned or raised and the events it caused. *)
Definition loop_body (part_number : string) (call : result json * list event)
  (st : loop_state) : outcome * loop_state * list event :=
  let '(r, call_events) := call in
  let events := log_message (MsgSearching part_number) ++ call_events in
  match r with
  | Ok result =>
      if truthy result
      then (Success part_number result,
            {| index := S (index st);
               results := dict_set (results st) part_number result;
               api_error_parts := api_error_parts st;
               sent := S (sent st) |},
            events)
      else (SoftFailure part_number,
            {| index := index st;
               results := results st;
               api_error_parts := api_error_parts st;
               sent := S (sent st) |},
            events ++ log_message (MsgRateLimit wait_time) ++ [Sleep wait_time])
  | Raise _ =>
      (HardFailure part_number,
       {| index := S (index st);
          results := results st;
          api_error_parts := api_error_parts st ++ [part_number];
          sent := S (sent st) |},
       events ++ log_message (MsgSearchFailed part_number))
  end.

Section FetchLoop.

Variable net : network.
Variables api_key option_ : string.
Variable mouser_part_numbers : list string.

(** One turn of [while index < len(mouser_part_numbers)]; [None] when
    the condition is false. *)
Definition step (st : loop_state) : option (outcome * loop_state * list event) :=
  match nth_error mouser_part_numbers (index st) with
  | None => None
  | Some part_number =>
      Some (loop_body part_number
              (APIManager.search_part_number net (sent st) part_number api_key option_)
              st)
  end.

(** The loop, run for at most [fuel] turns: [None] when it is still
    running after that many. *)
Fixpoint while_loop (fuel : nat) (st : loop_state)
  : option (list outcome * loop_state * list event) :=
  match step st with
  | None => Some ([], st, [])
  | Some (o, st', events) =>
      match fuel with
      | O => None
      | S fuel' =>
          match while_loop fuel' st' with
          | None => None
          | Some (os, final, events') => Some (o :: os, final, events ++ events')
          end
      end
  end.

End FetchLoop.

(** The report of a list of URLs or part numbers under a header. *)
Definition report (header : message) (blank_line : bool) (l : list string)
  : list event :=
  match l with
  | [] => []
  | _ => log_message header ++ flat_map (fun x => log_message (MsgLine x)) l
         ++ (if blank_line then log_message (MsgLine "") else [])
  end.

Definition initial_state (first_request : nat) : loop_state :=
  {| index := O; results := []; api_error_parts := []; sent := first_request |}.

(** [read_csv_and_search_parts]: [None] when the [while] loop is still
    running after [fuel] turns. *)
Definition read_csv_and_search_parts
  (urlparse : string -> result ParseResult)
  (environ : option string) (cfg : config_file) (net : network)
  (file : csv_file) (option_ : string) (fuel : nat)
  : option (result (dict string json) * list event) :=
  match APIManager.get_api_key environ cfg with
  | (Raise e, ev0) => Some (Raise e, ev0)
  | (Ok api_key, ev0) =>
      match extract_urls file with
      | (Raise e, ev1) => Some (Raise e, ev0 ++ ev1)
      | (Ok [], ev1) => Some (Ok [], ev0 ++ ev1 ++ log_message MsgNoUrls)
      | (Ok urls, ev1) =>
          let '(lists, ev2) := extract_part_numbers_from_urls urlparse urls in
          let ev3 := report MsgNotMouser true (non_mouser_urls lists)
                     ++ report MsgUrlErrors true (error_urls lists) in
          match while_loop net api_key option_ (mouser_part_numbers lists)
                  fuel (initial_state O) with
          | None => None
          | Some (_, final, ev4) =>
              Some (Ok (results final),
                    ev0 ++ ev1 ++ ev2 ++ ev3 ++ ev4
                    ++ report MsgApiErrors false (api_error_parts final))
          end
      end
  end.

(** ** [find_price_for_quantity] *)
Section Prices.

(** The built-in [float] applied to a string: [None] when it raises
    [ValueError]. *)
Variable py_float : string -> option float.

(** [float(break_info['Price'].replace('kr ', '').replace(',', '.'))] *)
Definition price_of (break_info : price_break) : result float :=
  match py_float (replace "," "." (replace "kr " "" (Price break_info))) with
  | Some x => Ok x
  | None => Raise ValueError
  end.

(** The dict comprehension that builds [price_dict], entry by entry. *)
Fixpoint price_dict_from (price_breaks : list price_break) (acc : dict Z float)
  : result (dict Z float) :=
  match price_breaks with
  | [] => Ok acc
  | break_info :: rest =>
      x <- price_of break_info ;;
      price_dict_from rest (dict_set acc (Quantity break_info) x)
  end.

Definition price_dict_of (price_breaks : list price_break) : result (dict Z float) :=
  price_dict_from price_breaks [].

(** The [for quantity in sorted_quantities] loop.  [nearest_price]
    starts as the int [0]; an int [0] plus a float [x] is [0.0 + x], and
    [0 > 0] is as false as [0.0 > 0], so it is a float from the start. *)
Fixpoint greedy (price_dict : dict Z float) (sorted_quantities : list Z)
  (nearest_price : float) (remaining_quantity : Z) : result (float * Z) :=
  match sorted_quantities with
  | [] => Ok (nearest_price, remaining_quantity)
  | quantity :: rest =>
      if quantity <=? remaining_quantity
      then num_units <- floordiv remaining_quantity quantity ;;
           unit_price <- dict_item price_dict quantity ;;
           amount <- int_mul_float num_units unit_price ;;
           remaining <- modulo remaining_quantity quantity ;;
           greedy price_dict rest (nearest_price + amount)%float remaining
      else greedy price_dict rest nearest_price remaining_quantity
  end.

(** The loop on the quantities of [price_dict], from [0] and the target. *)
Definition greedy_pass (price_dict : dict Z float) (target_quantity : Z)
  : result (float * Z) :=
  greedy price_dict (sorted_reverse (keys price_dict)) 0%float target_quantity.

(** The [else] operand of the last line. *)
Definition fallback (price_dict : dict Z float) (target_quantity : Z)
  : result float :=
  let sorted_quantities := sorted_reverse (keys price_dict) in
  smallest <- index_last sorted_quantities ;;
  unit_price <- dict_item price_dict smallest ;;
  smallest' <- index_last sorted_quantities ;;
  times <- floordiv target_quantity smallest' ;;
  float_mul_int unit_price times.

(** The function from [price_dict] on. *)
Definition price_for (price_dict : dict Z float) (target_quantity : Z)
  : result float :=
  match dict_get price_dict target_quantity with
  | Some unit_price => Ok unit_price
  | None =>
      '(nearest_price, _) <- greedy_pass price_dict target_quantity ;;
      if (0 <? nearest_price)%float then Ok nearest_price
      else fallback price_dict target_quantity
  end.

Definition find_price_for_quantity (price_breaks : list price_break)
  (target_quantity : Z) : result float :=
  price_dict <- price_dict_of price_breaks ;;
  price_for price_dict target_quantity.

End Prices.

(** ** [extract_prices_and_save_to_csv] *)
Section ExportRows.

Variable urlparse : string -> result ParseResult.
Variable py_float : string -> option float.

(** [f"{x:.2f}"] *)
Variable format_2f : float -> string.

(** [not cell or cell.strip() in ['~', '']] *)
Definition invalid_url (cell : string) : bool :=
  (cell =? "")%string || (strip cell =? "~")%string || (strip cell =? "")%string.

(** The test before [continue]; the cell is read only under the flag. *)
Definition skipped (exclude_invalid_urls : bool) (r : row) : result bool :=
  if exclude_invalid_urls
  then cell <- dict_item r "Datasheet" ;; Ok (invalid_url cell)
  else Ok false.

(** The four prices and the dict given to [row.update]. *)
Definition price_columns (price_breaks : list price_break)
  : result (list (string * string)) :=
  price_1 <- find_price_for_quantity py_float price_breaks 1 ;;
  price_10 <- find_price_for_quantity py_float price_breaks 10 ;;
  price_100 <- find_price_for_quantity py_float price_breaks 100 ;;
  price_1000 <- find_price_for_quantity py_float price_breaks 1000 ;;
  Ok [ ("Price for 1", format_2f price_1);
       ("Price for 10", format_2f price_10);
       ("Price for 100", format_2f price_100);
       ("Price for 1000", format_2f price_1000) ].

(** [row.update(columns)] *)
Definition update (r : row) (columns : list (string * string)) : row :=
  fold_left (fun acc kv => dict_set acc (fst kv) (snd kv)) columns r.

(** [results[part_number].get('SearchResults', {}).get('Parts', [])] *)
Definition parts_of (response : search_response) : list part :=
  match SearchResults response with
  | None => []
  | Some search_results =>
      match Parts search_results with
      | None => []
      | Some parts => parts
      end
  end.

(** The body of the loop from [part_number = ...] to the row given to
    the writer. *)
Definition priced_row (results : dict string search_response) (r : row)
  : result row :=
  cell <- dict_item r "Datasheet" ;;
  parsed <- urlparse cell ;;
  part_number <- index_last (split "/" (path parsed)) ;;
  match dict_get results part_number with
  | None => Ok r
  | Some response =>
      match parts_of response with
      | [] => Ok r
      | part :: _ =>
          let price_breaks :=
            match PriceBreaks part with Some l => l | None => [] end in
          columns <- price_columns price_breaks ;;
          Ok (update r columns)
      end
  end.

(** [writer.writerow(row)]: a [DictWriter] refuses a row with a key that
    is not one of its field names.  What is kept of the output is the
    row it was given. *)
Definition writerow (fieldnames : list string) (r : row) : result row :=
  if forallb (fun k => existsb (String.eqb k) fieldnames) (keys r)
  then Ok r else Raise ValueError.

(** [for row in input_data]: the rows written, in order, and the
    exception that ended the loop, if one did. *)
Fixpoint write_rows (fieldnames : list string) (exclude_invalid_urls : bool)
  (results : dict string search_response) (input_data : list row)
  : list row * option exn :=
  match input_data with
  | [] => ([], None)
  | r :: rest =>
      match skipped exclude_invalid_urls r with
      | Raise e => ([], Some e)
      | Ok true => write_rows fieldnames exclude_invalid_urls results rest
      | Ok false =>
          match (r' <- priced_row results r ;; writerow fieldnames r') with
          | Raise e => ([], Some e)
          | Ok r' =>
              let '(written, raised) :=
                write_rows fieldnames exclude_invalid_urls results rest in
              (r' :: written, raised)
          end
      end
  end.

Definition price_fieldnames : list string :=
  ["Price for 1"; "Price for 10"; "Price for 100"; "Price for 1000"].

Definition extract_prices_and_save_to_csv (results : dict string search_response)
  (file : bom_file) (exclude_invalid_urls : bool) : list row * option exn :=
  match header file with
  | None => ([], Some TypeError)
  | Some names =>
      write_rows (names ++ price_fieldnames) exclude_invalid_urls results
        (rows file)
  end.

End ExportRows.

End DataProcessor.

Import DataProcessor.

(* ================================================================== *)
(** * The library functions the program is given                       *)
(* ================================================================== *)

(** [find_price_for_quantity] and [extract_part_numbers_from_urls] take
    [float] and [urlparse] as arguments above, and what is proved of
    them holds whatever these two do.  The two definitions of this part
    follow CPython on a fragment of their inputs and serve to evaluate
    the program on concrete inputs. *)

(** ** [float] on plain decimal literals

    [float_of_decimal] reads an optional sign, digits, and an optional
    point followed by digits.  With at most 22 digits after the point
    and all digits together below [2^53], both the digits read as one
    integer and the power of ten are floats, and their quotient,
    rounded once, is the float nearest to the literal, which is what
    [float] returns.  Any other string gives [None] here, also where
    [float] accepts it (exponents, longer literals, surrounding blanks). *)
Definition digit_of (c : ascii) : option Z :=
  let n := code c in
  if ((48 <=? n) && (n <=? 57))%N then Some (Z.of_N n - 48) else None.

(** The leading digits of [s], appended to [acc]: the value, how many
    digits were read, and the rest of the string. *)
Fixpoint read_digits (s : string) (acc : Z) (count : nat) : Z * nat * string :=
  match s with
  | EmptyString => (acc, count, s)
  | String c s' =>
      match digit_of c with
      | Some d => read_digits s' (10 * acc + d) (S count)
      | None => (acc, count, s)
      end
  end.

Definition float_of_decimal (s : string) : option float :=
  let '(negative, body) :=
    match s with
    | String "-" r => (true, r)
    | String "+" r => (false, r)
    | _ => (false, s)
    end in
  let '(int_part, n1, rest) := read_digits body 0 O in
  let '(digits, n2, rest') :=
    match rest with
    | String "." r => read_digits r int_part O
    | _ => (int_part, O, rest)
    end in
  match rest' with
  | EmptyString =>
      if (Nat.eqb (n1 + n2) O) || negb (digits <? 2 ^ 53) || negb (Nat.leb n2 22)
      then None
      else match float_of_int digits, float_of_int (10 ^ Z.of_nat n2) with
           | Ok a, Ok b => Some (if negative then - (a / b) else a / b)%float
           | _, _ => None
           end
  | _ => None
  end.

(** ** [urlparse]

    [urlparse_model] follows [urllib.parse.urlparse] of CPython 3.12 on
    strings of code points below 256, for which the check of the
    network location against its NFKC form never raises.  A host in
    square brackets is accepted as it stands, without the address check
    that CPython makes since 3.11.4. *)

(** [s.split(c, 1)] when [c] is in [s]: the parts before and after the
    first [c]. *)
Fixpoint split_once (c : ascii) (s : string) : option (string * string) :=
  match s with
  | EmptyString => None
  | String a s' =>
      if Ascii.eqb a c then Some (EmptyString, s')
      else match split_once c s' with
           | Some (before, after) => Some (String a before, after)
           | None => None
           end
  end.

Fixpoint remove_chars (drop : ascii -> bool) (s : string) : string :=
  match s with
  | EmptyString => EmptyString
  | String c s' => if drop c then remove_chars drop s' else String c (remove_chars drop s')
  end.

Fixpoint all_chars (p : ascii -> bool) (s : string) : bool :=
  match s with
  | EmptyString => true
  | String c s' => p c && all_chars p s'
  end.

Fixpoint has_char (c : ascii) (s : string) : bool :=
  match s with
  | EmptyString => false
  | String a s' => Ascii.eqb a c || has_char c s'
  end.

Definition ascii_alpha (c : ascii) : bool :=
  let n := code c in
  (((65 <=? n) && (n <=? 90)) || ((97 <=? n) && (n <=? 122)))%N.

Definition scheme_char (c : ascii) : bool :=
  let n := code c in
  (ascii_alpha c || ((48 <=? n) && (n <=? 57)) || (n =? 43) || (n =? 45) || (n =? 46))%N.

(** [_splitnetloc(url, 2)] on what follows the two slashes. *)
Fixpoint splitnetloc (s : string) : string * string :=
  match s with
  | EmptyString => (EmptyString, EmptyString)
  | String c s' =>
      if Ascii.eqb c "/" || Ascii.eqb c "?" || Ascii.eqb c "#" then (EmptyString, s)
      else let '(host, rest) := splitnetloc s' in (String c host, rest)
  end.

(** [_splitparams], which [urlparse] calls on a string with a
    semicolon: the parameters of the last path segment. *)
Fixpoint splitparams (url : string) : string * string :=
  match url with
  | EmptyString => (EmptyString, EmptyString)
  | String c s' =>
      if has_char "/" s' then let '(p, q) := splitparams s' in (String c p, q)
      else match split_once ";" (if Ascii.eqb c "/" then s' else url) with
           | Some (before, after) =>
               (if Ascii.eqb c "/" then String c before else before, after)
           | None => (url, EmptyString)
           end
  end.

Definition uses_params : list string :=
  [""; "ftp"; "hdl"; "prospero"; "http"; "imap"; "https"; "shttp"; "rtsp";
   "rtspu"; "sip"; "sips"; "mms"; "sftp"; "tel"].

Definition urlparse_model (url0 : string) : result ParseResult :=
  let url1 := lstrip_by (fun c => (code c <=? 32)%N) url0 in
  let url2 := remove_chars (fun c => (code c =? 9) || (code c =? 13) || (code c =? 10))%N url1 in
  let '(scheme_, url3) :=
    match split_once ":" url2 with
    | Some (String c0 before, after) =>
        if ascii_alpha c0 && all_chars scheme_char (String c0 before)
        then (lower (String c0 before), after) else (EmptyString, url2)
    | _ => (EmptyString, url2)
    end in
  '(netloc_, url4) <-
    match url3 with
    | String "/" (String "/" after) =>
        let '(host, rest) := splitnetloc after in
        if xorb (has_char "[" host) (has_char "]" host)
        then Raise ValueError else Ok (host, rest)
    | _ => Ok (EmptyString, url3)
    end ;;
  let '(url5, fragment_) :=
    match split_once "#" url4 with
    | Some (before, after) => (before, after)
    | None => (url4, EmptyString)
    end in
  let '(url6, query_) :=
    match split_once "?" url5 with
    | Some (before, after) => (before, after)
    | None => (url5, EmptyString)
    end in
  let '(path_, params_) :=
    if existsb (String.eqb scheme_) uses_params && has_char ";" url6
    then splitparams url6 else (url6, EmptyString) in
  Ok {| scheme := scheme_; netloc := netloc_; path := path_;
        params := params_; query := query_; fragment := fragment_ |}.

(** ** [f"{x:.2f}"] on whole numbers

    A float that is a whole number prints as its decimal digits
    followed by a point and two zeros.  [format_2f_whole] gives the
    empty string for every other float. *)
Definition whole (x : float) : option (bool * Z) :=
  match Prim2SF x with
  | S754_zero s => Some (s, 0)
  | S754_finite s m e =>
      if 0 <=? e then Some (s, Zpos m * 2 ^ e)
      else if (Zpos m mod 2 ^ (- e)) =? 0 then Some (s, Zpos m / 2 ^ (- e))
      else None
  | _ => None
  end.

(** The decimal digits of [n], in front of [acc]. *)
Fixpoint digits_of (fuel : nat) (n : Z) (acc : string) : string :=
  match fuel with
  | O => acc
  | S fuel' =>
      let acc' := String (ascii_of_N (48 + Z.to_N (n mod 10))) acc in
      if n <? 10 then acc' else digits_of fuel' (n / 10) acc'
  end.

Definition format_2f_whole (x : float) : string :=
  match whole x with
  | Some (negative, n) =>
      ((if negative then "-" else "")
       ++ digits_of (S (Z.to_nat (Z.log2 n))) n ".00")%string
  | None => EmptyString
  end.

(* ================================================================== *)
(** * The price resolver as the specification words it                 *)
(* ================================================================== *)

(** The breaks are pairs of a quantity and its unit price, listed from
    the largest quantity to the smallest. *)
Definition descending (breaks : list (Z * float)) : Prop :=
  StronglySorted (fun a b => fst b < fst a) breaks.

(** For each break quantity that fits in what remains: the whole
    multiples that fit, their cost added to the total, and the remainder
    reduced by the multiples taken, before the next smaller quantity. *)
Fixpoint spec_greedy (breaks : list (Z * float)) (remaining : Z) (total : float)
  : result (float * Z) :=
  match breaks with
  | [] => Ok (total, remaining)
  | (quantity, unit_price) :: smaller =>
      if quantity <=? remaining
      then multiples <- floordiv remaining quantity ;;
           cost <- int_mul_float multiples unit_price ;;
           spec_greedy smaller (remaining - multiples * quantity) (total + cost)%float
      else spec_greedy smaller remaining total
  end.

(** The table [{1: 10.0, 10: 8.0, 100: 6.0}] of the specification's
    examples. *)
Definition example_breaks : dict Z float :=
  [(1, 10%float); (10, 8%float); (100, 6%float)].

(** The price breaks of the examples as the API lists them, and a list
    with the single break [{100: 5.0}]. *)
Definition example_price_breaks : list price_break :=
  [ {| Quantity := 1; Price := "kr 10,0" |};
    {| Quantity := 10; Price := "kr 8,0" |};
    {| Quantity := 100; Price := "kr 6,0" |} ].

Definition single_price_break : list price_break :=
  [ {| Quantity := 100; Price := "kr 5,0" |} ].

(* ================================================================== *)
(** * The URL classes as the specification words them                  *)
(* ================================================================== *)

Inductive url_class : Type :=
| Supplier (part_identifier : string)
| NonSupplier
| ErrorUrl.

(** The final segment of a path: what follows its last slash, or all of
    it when it has none. *)
Fixpoint final_segment (s : string) : string :=
  match s with
  | EmptyString => EmptyString
  | String c s' =>
      if has_char "/" s' then final_segment s'
      else if Ascii.eqb c "/" then s' else s
  end.

(** A URL that does not parse is an error; one whose network location,
    in lower case, contains the marker is a supplier URL, and its part
    identifier is its final path segment without the blanks around it;
    any other URL is a non-supplier URL. *)
Definition classify (urlparse : string -> result ParseResult) (url : string)
  : url_class :=
  match urlparse url with
  | Raise _ => ErrorUrl
  | Ok parsed =>
      if contains "mouser.com" (lower (netloc parsed))
      then Supplier (strip (final_segment (path parsed)))
      else NonSupplier
  end.

Definition supplier_part (c : url_class) : list string :=
  match c with Supplier part_identifier => [part_identifier] | _ => [] end.

Definition is_non_supplier (c : url_class) : bool :=
  match c with NonSupplier => true | _ => false end.

Definition is_error (c : url_class) : bool :=
  match c with ErrorUrl => true | _ => false end.

(** The three lists after the URLs of [urls], from the lists [acc]. *)
Definition classified (urlparse : string -> result ParseResult)
  (acc : url_lists) (urls : list string) : url_lists :=
  {| mouser_part_numbers :=
       mouser_part_numbers acc
       ++ flat_map (fun url => supplier_part (classify urlparse url)) urls;
     non_mouser_urls :=
       non_mouser_urls acc
       ++ filter (fun url => is_non_supplier (classify urlparse url)) urls;
     error_urls :=
       error_urls acc
       ++ filter (fun url => is_error (classify urlparse url)) urls |}.

(* ================================================================== *)
(** * The fetch loop and the credential: auxiliary notions             *)
(* ================================================================== *)

(** The request the loop sends for a part number. *)
Definition request_for (api_key option_ part_number : string) : request :=
  {| apiKey := api_key; mouserPartNumber := part_number;
     partSearchOptions := option_ |}.

(** A soft failure: the request completes, and what it yields is empty
    or null. *)
Definition soft_reply (r : reply) : bool :=
  match r with
  | Response status_code (Some j) =>
      negb ((400 <=? status_code) && (status_code <? 600)) && negb (truthy j)
  | _ => false
  end.

(** A hard failure: the request raises a transport or protocol error. *)
Definition hard_reply (r : reply) : bool :=
  match r with
  | NoResponse => true
  | Response status_code body =>
      ((400 <=? status_code) && (status_code <? 600))
      || match body with None => true | Some _ => false end
  end.



(** The key the configuration file supplies: the string under
    [search_api_key], without the blanks around it, when that is not
    empty. *)
Definition config_key (cfg : config_file) : option string :=
  match cfg with
  | Loaded (YMapping entries) =>
      match dict_get entries "search_api_key" with
      | Some (YStr s) => if (strip s =? "")%string then None else Some (strip s)
      | _ => None
      end
  | _ => None
  end.

Definition is_post (e : event) : bool :=
  match e with Post _ => true | _ => false end.

(** ** Networks and inputs to run the loop on *)

(** A network that is down: every request raises, and the line about
    it is printed. *)
Definition net_down : network :=
  {| post := fun _ _ => NoResponse; print_error := fun _ _ => None |}.

(** A network that answers every request with a part. *)
Definition found : json := JDict [("SearchResults", JDict [("NumberOfResult", JInt 1)])].
Definition net_up : network :=
  {| post := fun _ _ => Response 200 (Some found);
     print_error := fun _ _ => None |}.

(** A network whose first two answers are empty and the others not. *)
Definition net_limited : network :=
  {| post := fun n _ =>
       if Nat.ltb n 2 then Response 200 (Some (JDict [])) else Response 200 (Some found);
     print_error := fun _ _ => None |}.

(** A run on three identifiers, one of them twice, against
    [net_limited]: two waits, then three results. *)
Definition example_parts : list string := ["595-LM358P"; "511-NE555"; "595-LM358P"].

Definition example_run : option (list outcome * loop_state * list event) :=
  while_loop net_limited "KEY" "Exact" example_parts 5 (initial_state O).

Definition example_outcomes : list outcome :=
  [ SoftFailure "595-LM358P"; SoftFailure "595-LM358P";
    Success "595-LM358P" found; Success "511-NE555" found;
    Success "595-LM358P" found ].

Definition example_final : loop_state :=
  {| index := 3;
     results := [("595-LM358P", found); ("511-NE555", found)];
     api_error_parts := [];
     sent := 5 |}.

(** A network whose second answer is an HTTP 500, met with a console
    that does not take the line about it ([UnicodeEncodeError] is a
    [ValueError]); and the run on the three identifiers against it: the
    second identifier goes to the error list. *)
Definition net_garbled : network :=
  {| post := fun n _ =>
       if Nat.eqb n 1 then Response 500 None else Response 200 (Some found);
     print_error := fun _ _ => Some ValueError |}.

Definition garbled_run : option (list outcome * loop_state * list event) :=
  while_loop net_garbled "KEY" "Exact" example_parts 3 (initial_state O).

Definition garbled_outcomes : list outcome :=
  [ Success "595-LM358P" found; HardFailure "511-NE555";
    Success "595-LM358P" found ].

Definition garbled_final : loop_state :=
  {| index := 3;
     results := [("595-LM358P", found)];
     api_error_parts := ["511-NE555"];
     sent := 3 |}.

(** A BOM of three rows: a supplier URL, a URL of another site, and a
    string on which [urlparse] raises. *)
Definition example_csv : csv_file :=
  {| fieldnames := Some ["Reference"; "Value"; "Datasheet"];
     Datasheet := [ Some "https://www.mouser.com/ProductDetail/595-LM358P";
                    Some "https://www.ti.com/product/LM358";
                    Some "http://[::1/LM358" ] |}.

(* ================================================================== *)
(** * Runs of the loop and of the export: what is read off them        *)
(* ================================================================== *)

(** The identifiers fetched with success, in the order of the turns. *)
Definition success_parts (outs : list outcome) : list string :=
  flat_map (fun o => match o with Success p _ => [p] | _ => [] end) outs.

Definition is_soft (o : outcome) : bool :=
  match o with SoftFailure _ => true | _ => false end.

(** The identifiers of the turns that ended in the [except] branch of
    the loop, in the order of the turns. *)
Definition hard_parts (outs : list outcome) : list string :=
  flat_map (fun o => match o with HardFailure p => [p] | _ => [] end) outs.

(** The turns after which the loop went on to the next identifier. *)
Definition settled (outs : list outcome) : list outcome :=
  filter (fun o => negb (is_soft o)) outs.

Definition is_sleep (e : event) : bool :=
  match e with Sleep _ => true | _ => false end.

(** The part numbers of the requests among some events. *)
Definition posted_parts (events : list event) : list string :=
  flat_map (fun e => match e with Post r => [mouserPartNumber r] | _ => [] end)
    events.

(** The document of the last successful fetch of [p] among the turns,
    [before] when there is none. *)
Fixpoint last_success (p : string) (outs : list outcome) (before : option json)
  : option json :=
  match outs with
  | [] => before
  | Success q r :: rest =>
      last_success p rest (if (q =? p)%string then Some r else before)
  | _ :: rest => last_success p rest before
  end.

(** The identifier a turn was for. *)
Definition outcome_part (o : outcome) : string :=
  match o with
  | Success p _ => p
  | SoftFailure p => p
  | HardFailure p => p
  end.

Definition is_log (e : event) : bool :=
  match e with Log _ => true | _ => false end.

(** A reply that is not a non-empty document: the request failed, or
    what came back is empty or null. *)
Definition no_document (r : reply) : bool := hard_reply r || soft_reply r.

(** The BOM file as [extract_urls] reads it. *)
Definition csv_of_bom (file : bom_file) : csv_file :=
  {| fieldnames := header file;
     Datasheet := map (fun r => dict_get r "Datasheet") (rows file) |}.

(** The rows the export does not skip: all of them without the flag,
    and with it those whose ['Datasheet'] cell is neither empty, blank
    nor a tilde. *)
Definition kept (exclude_invalid_urls : bool) (r : row) : bool :=
  negb (exclude_invalid_urls
        && match dict_get r "Datasheet" with
           | Some cell => invalid_url cell
           | None => false
           end).

(** A BOM of three rows, the second and third without a URL, and the
    responses for its part. *)
Definition example_bom : bom_file :=
  {| header := Some ["Reference"; "Datasheet"];
     rows := [ [ ("Reference", "U1");
                 ("Datasheet", "https://www.mouser.com/ProductDetail/595-LM358P") ];
               [ ("Reference", "R1"); ("Datasheet", "~") ];
               [ ("Reference", "C1"); ("Datasheet", " ") ] ] |}.

Definition example_responses : dict string search_response :=
  [ ("595-LM358P",
     {| SearchResults :=
          Some {| Parts := Some [ {| PriceBreaks := Some example_price_breaks |} ] |} |}) ].

(** A string with no blank at either end. *)
Definition stripped (s : string) : Prop := strip s = s.

(** The price string as [float] receives it. *)
Definition cleaned (price : string) : string :=
  replace "," "." (replace "kr " "" price).

(* ================================================================== *)
(** * Facts about the built-ins                                        *)
(* ================================================================== *)


Section DictFacts.

Context {K V : Type} `{Key K}.

Lemma key_eqb_eq (a b : K) : key_eqb a b = true <-> a = b.
Proof. destruct (key_eqb_spec a b); split; congruence. Qed.

Lemma key_eqb_neq (a b : K) : key_eqb a b = false <-> a <> b.
Proof. destruct (key_eqb_spec a b); split; congruence. Qed.

Lemma dict_get_In (d : dict K V) k v : dict_get d k = Some v -> In (k, v) d.
Proof.
  induction d as [| [k' v'] d IH]; simpl; [discriminate |].
  destruct (key_eqb_spec k k') as [-> | _].
  - intros [= ->]. now left.
  - intros Hget. right. auto.
Qed.

Lemma dict_get_None (d : dict K V) k : dict_get d k = None <-> ~ In k (keys d).
Proof.
  induction d as [| [k' v'] d IH]; simpl.
  - tauto.
  - destruct (key_eqb_spec k k') as [-> | Hne].
    + split; [discriminate | intros Hn; exfalso; apply Hn; now left].
    + rewrite IH. split; intros Hn; [intros [Heq | Hin] | ]; try tauto.
      congruence.
Qed.

Lemma In_dict_get (d : dict K V) k v :
  NoDup (keys d) -> In (k, v) d -> dict_get d k = Some v.
Proof.
  induction d as [| [k' v'] d IH]; simpl; [tauto |].
  intros Hnd Hin. inversion Hnd as [| ? ? Hnotin Hnd']; subst.
  destruct (key_eqb_spec k k') as [-> | Hne].
  - destruct Hin as [[= ->] | Hin]; [reflexivity |].
    exfalso. apply Hnotin. apply (in_map fst) in Hin. exact Hin.
  - destruct Hin as [[= -> _] | Hin]; [congruence | auto].
Qed.

Lemma dict_get_set_same (d : dict K V) k v : dict_get (dict_set d k v) k = Some v.
Proof.
  induction d as [| [k' v'] d IH]; simpl.
  - now rewrite (proj2 (key_eqb_eq k k) eq_refl).
  - destruct (key_eqb_spec k k') as [-> | Hne]; simpl.
    + now rewrite (proj2 (key_eqb_eq k' k') eq_refl).
    + now rewrite (proj2 (key_eqb_neq k k') Hne).
Qed.

Lemma dict_get_set_other (d : dict K V) k k' v :
  k <> k' -> dict_get (dict_set d k v) k' = dict_get d k'.
Proof.
  intros Hne. induction d as [| [k0 v0] d IH]; simpl.
  - now rewrite (proj2 (key_eqb_neq k' k)) by congruence.
  - destruct (key_eqb_spec k k0) as [-> | Hne0]; simpl.
    + now rewrite (proj2 (key_eqb_neq k' k0)) by congruence.
    + now rewrite IH.
Qed.

Lemma keys_dict_set (d : dict K V) k v :
  keys (dict_set d k v) = if dict_mem d k then keys d else keys d ++ [k].
Proof.
  unfold dict_mem. induction d as [| [k' v'] d IH]; simpl; [reflexivity |].
  destruct (key_eqb_spec k k') as [-> | Hne]; simpl; [reflexivity |].
  rewrite IH. now destruct (dict_get d k).
Qed.

Lemma NoDup_dict_set (d : dict K V) k v :
  NoDup (keys d) -> NoDup (keys (dict_set d k v)).
Proof.
  intros Hnd. rewrite keys_dict_set. unfold dict_mem.
  destruct (dict_get d k) eqn:Hget; [exact Hnd |].
  apply dict_get_None in Hget.
  apply NoDup_app; [exact Hnd | repeat constructor; simpl; tauto |].
  intros x Hx [<- | []]. contradiction.
Qed.

Lemma In_keys_dict_set (d : dict K V) k v x :
  In x (keys (dict_set d k v)) <-> In x (keys d) \/ x = k.
Proof.
  rewrite keys_dict_set. unfold dict_mem.
  destruct (dict_get d k) eqn:Hget.
  - apply dict_get_In, (in_map fst) in Hget. simpl in Hget.
    split; [tauto | intros [Hin | ->]; assumption].
  - rewrite in_app_iff. simpl. intuition congruence.
Qed.

End DictFacts.

(** ** [sorted(..., reverse=True)] *)

Lemma insert_desc_perm q l : Permutation (q :: l) (insert_desc q l).
Proof.
  induction l as [| x l IH]; simpl; [reflexivity |].
  destruct (x <? q); [reflexivity |].
  rewrite perm_swap. now apply perm_skip.
Qed.

Lemma sorted_reverse_perm l : Permutation l (sorted_reverse l).
Proof.
  induction l as [| x l IH]; simpl; [reflexivity |].
  rewrite <- insert_desc_perm. now apply perm_skip.
Qed.

Lemma insert_desc_sorted q l :
  StronglySorted (fun a b => b <= a) l ->
  StronglySorted (fun a b => b <= a) (insert_desc q l).
Proof.
  induction 1 as [| x l Hs IH Hall]; simpl.
  - repeat constructor.
  - destruct (Z.ltb_spec x q) as [Hlt | Hge].
    + constructor; [now constructor |].
      constructor; [lia |].
      eapply Forall_impl; [| exact Hall]. simpl. intros; lia.
    + constructor; [exact IH |].
      eapply Permutation_Forall; [apply insert_desc_perm |].
      constructor; [lia | exact Hall].
Qed.

Lemma sorted_reverse_sorted l : StronglySorted (fun a b => b <= a) (sorted_reverse l).
Proof.
  induction l as [| x l IH]; simpl; [constructor | now apply insert_desc_sorted].
Qed.

Lemma strictly_sorted_NoDup l : StronglySorted (fun a b : Z => b < a) l -> NoDup l.
Proof.
  induction 1 as [| x l Hs IH Hall]; constructor; [| exact IH].
  intros Hin. rewrite Forall_forall in Hall. specialize (Hall x Hin). lia.
Qed.

Lemma sorted_NoDup_strict l :
  StronglySorted (fun a b : Z => b <= a) l -> NoDup l ->
  StronglySorted (fun a b => b < a) l.
Proof.
  induction 1 as [| x l Hs IH Hall]; intros Hnd; constructor.
  - apply IH. now inversion Hnd.
  - inversion Hnd as [| ? ? Hnotin _]; subst.
    rewrite Forall_forall in *. intros y Hy.
    specialize (Hall y Hy). assert (y <> x) by congruence. lia.
Qed.

(** A set of integers has one strictly descending listing. *)
Lemma strictly_sorted_unique l1 :
  forall l2, Permutation l1 l2 ->
    StronglySorted (fun a b : Z => b < a) l1 ->
    StronglySorted (fun a b : Z => b < a) l2 -> l1 = l2.
Proof.
  induction l1 as [| a l1 IH]; intros l2 Hperm Hs1 Hs2.
  - apply Permutation_nil in Hperm. now subst.
  - destruct l2 as [| b l2].
    + apply Permutation_sym, Permutation_nil in Hperm. discriminate.
    + inversion Hs1 as [| ? ? Hs1' Hall1]; subst.
      inversion Hs2 as [| ? ? Hs2' Hall2]; subst.
      rewrite Forall_forall in Hall1, Hall2.
      assert (Hab : a = b).
      { assert (Ha : In a (b :: l2))
          by (eapply Permutation_in; [exact Hperm | now left]).
        assert (Hb : In b (a :: l1))
          by (eapply Permutation_in; [apply Permutation_sym; exact Hperm | now left]).
        destruct Ha as [-> | Ha]; [reflexivity |].
        destruct Hb as [-> | Hb]; [reflexivity |].
        specialize (Hall1 b Hb). specialize (Hall2 a Ha). lia. }
      subst b. f_equal. apply IH; auto.
      eapply Permutation_cons_inv; exact Hperm.
Qed.

Lemma descending_keys (breaks : list (Z * float)) :
  descending breaks -> StronglySorted (fun a b => b < a) (keys breaks).
Proof.
  unfold descending, keys.
  induction 1 as [| x l Hs IH Hall]; simpl; constructor; [exact IH |].
  rewrite Forall_forall in *. intros q Hq.
  apply in_map_iff in Hq as [y [<- Hy]]. auto.
Qed.

(** The quantities of a dict, sorted by the program, are the quantities
    of any descending listing of its entries. *)
Lemma sorted_reverse_keys (d sb : dict Z float) :
  Permutation sb d -> descending sb -> sorted_reverse (keys d) = keys sb.
Proof.
  intros Hperm Hdesc. symmetry.
  assert (Hk : Permutation (keys sb) (keys d)) by (now apply Permutation_map).
  apply strictly_sorted_unique.
  - rewrite Hk. apply sorted_reverse_perm.
  - now apply descending_keys.
  - apply sorted_NoDup_strict; [apply sorted_reverse_sorted |].
    eapply Permutation_NoDup; [apply sorted_reverse_perm |].
    eapply Permutation_NoDup; [exact Hk |].
    now apply strictly_sorted_NoDup, descending_keys.
Qed.

Lemma descending_NoDup_keys (d sb : dict Z float) :
  Permutation sb d -> descending sb -> NoDup (keys d).
Proof.
  intros Hperm Hdesc.
  eapply Permutation_NoDup; [apply Permutation_map; exact Hperm |].
  now apply strictly_sorted_NoDup, descending_keys.
Qed.

(** ** [l[-1]] *)

Lemma index_last_In {A : Type} (l : list A) x : index_last l = Ok x -> In x l.
Proof.
  induction l as [| a [| b l] IH]; simpl in *; [discriminate | |].
  - intros [= ->]. now left.
  - intros Hl. right. now apply IH.
Qed.

Lemma index_last_some {A : Type} (l : list A) : l <> [] -> exists x, index_last l = Ok x.
Proof.
  induction l as [| a [| b l] IH]; intros Hne; [congruence | now exists a |].
  destruct IH as [x Hx]; [discriminate |]. now exists x.
Qed.

Lemma index_last_least l m :
  StronglySorted (fun a b : Z => b <= a) l -> index_last l = Ok m ->
  forall x, In x l -> m <= x.
Proof.
  induction 1 as [| a l Hs IH Hall]; intros Hl x Hx; [destruct Hx |].
  destruct l as [| b l].
  - simpl in Hl. injection Hl as ->. destruct Hx as [-> | []]. lia.
  - change (index_last (a :: b :: l)) with (index_last (b :: l)) in Hl.
    destruct Hx as [-> | Hx]; [| now apply IH].
    apply index_last_In in Hl. rewrite Forall_forall in Hall.
    now apply Hall.
Qed.

(** ** Floats *)

Lemma zero_not_positive (x : float) : (x =? 0)%float = true -> (0 <? x)%float = false.
Proof.
  rewrite eqb_spec, ltb_spec. unfold SFeqb, SFltb.
  change (Prim2SF 0) with (S754_zero false).
  destruct (Prim2SF x) as [s | s | | s m e]; simpl; try discriminate; try reflexivity.
  all: destruct s; discriminate.
Qed.

(* ================================================================== *)
(** * The price resolver                                               *)
(* ================================================================== *)

Section PriceFacts.

Variable py_float : string -> option float.

(** ** [price_dict] *)

Lemma price_dict_from_get_other pbs :
  forall acc d k,
    price_dict_from py_float pbs acc = Ok d ->
    ~ In k (map Quantity pbs) -> dict_get d k = dict_get acc k.
Proof.
  induction pbs as [| b pbs IH]; simpl; intros acc d k Hd Hk.
  - now injection Hd as ->.
  - destruct (price_of py_float b) as [x |]; simpl in Hd; [| discriminate].
    rewrite (IH _ _ _ Hd) by tauto.
    apply dict_get_set_other. tauto.
Qed.

Lemma price_dict_from_get pbs :
  forall acc d b,
    price_dict_from py_float pbs acc = Ok d ->
    NoDup (map Quantity pbs) -> In b pbs ->
    exists x, price_of py_float b = Ok x /\ dict_get d (Quantity b) = Some x.
Proof.
  induction pbs as [| b0 pbs IH]; simpl; intros acc d b Hd Hnd Hin; [tauto |].
  inversion Hnd as [| ? ? Hnotin Hnd']; subst.
  destruct (price_of py_float b0) as [x |] eqn:Hx; simpl in Hd; [| discriminate].
  destruct Hin as [-> | Hin].
  - exists x. split; [exact Hx |].
    rewrite (price_dict_from_get_other _ _ _ _ Hd Hnotin).
    apply dict_get_set_same.
  - eapply IH; eauto.
Qed.

Lemma price_dict_from_keys pbs :
  forall acc d q,
    price_dict_from py_float pbs acc = Ok d ->
    (In q (keys d) <-> In q (keys acc) \/ In q (map Quantity pbs)).
Proof.
  induction pbs as [| b pbs IH]; simpl; intros acc d q Hd.
  - injection Hd as ->. tauto.
  - destruct (price_of py_float b) as [x |]; simpl in Hd; [| discriminate].
    rewrite (IH _ _ q Hd), In_keys_dict_set. intuition congruence.
Qed.

Lemma price_dict_from_NoDup pbs :
  forall acc d,
    price_dict_from py_float pbs acc = Ok d -> NoDup (keys acc) -> NoDup (keys d).
Proof.
  induction pbs as [| b pbs IH]; simpl; intros acc d Hd Hnd.
  - now injection Hd as <-.
  - destruct (price_of py_float b) as [x |]; simpl in Hd; [| discriminate].
    eapply IH; [exact Hd |]. now apply NoDup_dict_set.
Qed.

Lemma price_dict_of_miss pbs d t :
  price_dict_of py_float pbs = Ok d -> ~ In t (map Quantity pbs) ->
  dict_get d t = None.
Proof.
  intros Hd Ht. apply dict_get_None.
  rewrite (price_dict_from_keys _ _ _ t Hd). simpl. tauto.
Qed.

(** ** The greedy pass against the specification's description *)

Lemma greedy_refines (d : dict Z float) sb :
  forall remaining total,
    (forall q x, In (q, x) sb -> dict_get d q = Some x) ->
    greedy d (keys sb) total remaining = spec_greedy sb remaining total.
Proof.
  induction sb as [| [q x] sb IH]; intros remaining total Hget; simpl; [reflexivity |].
  destruct (q <=? remaining); [| apply IH; intros; apply Hget; now right].
  unfold floordiv, modulo, dict_item.
  destruct (Z.eqb_spec q 0) as [-> | Hq]; simpl; [reflexivity |].
  rewrite (Hget q x) by now left. simpl.
  destruct (int_mul_float (remaining / q) x) as [cost |]; simpl; [| reflexivity].
  rewrite IH by (intros; apply Hget; now right).
  f_equal. rewrite Z.mod_eq by exact Hq. lia.
Qed.

Lemma greedy_pass_spec (d sb : dict Z float) t :
  Permutation sb d -> descending sb ->
  greedy_pass d t = spec_greedy sb t 0.
Proof.
  intros Hperm Hdesc. unfold greedy_pass.
  rewrite (sorted_reverse_keys d sb Hperm Hdesc).
  apply greedy_refines. intros q x Hin.
  apply In_dict_get; [now apply (descending_NoDup_keys d sb) |].
  eapply Permutation_in; eauto.
Qed.

Lemma greedy_skips_all (d : dict Z float) qs :
  forall total remaining,
    Forall (fun q => remaining < q) qs ->
    greedy d qs total remaining = Ok (total, remaining).
Proof.
  induction qs as [| q qs IH]; intros total remaining Hall; simpl; [reflexivity |].
  inversion Hall as [| ? ? Hq Hall']; subst.
  destruct (Z.leb_spec q remaining); [lia | now apply IH].
Qed.

(** ** The fallback *)

Lemma fallback_smallest (d : dict Z float) t :
  d <> [] ->
  exists smallest unit_price,
    In (smallest, unit_price) d
    /\ (forall q, In q (keys d) -> smallest <= q)
    /\ fallback d t = (times <- floordiv t smallest ;; float_mul_int unit_price times).
Proof.
  intros Hne. unfold fallback.
  destruct (index_last_some (sorted_reverse (keys d))) as [m Hm].
  { intros Hnil. apply Hne.
    pose proof (sorted_reverse_perm (keys d)) as Hp. rewrite Hnil in Hp.
    apply Permutation_sym, Permutation_nil in Hp.
    destruct d; [reflexivity | discriminate]. }
  assert (Hin : In m (keys d)).
  { eapply Permutation_in; [apply Permutation_sym, sorted_reverse_perm |].
    now apply index_last_In. }
  destruct (dict_get d m) as [x |] eqn:Hx;
    [| apply dict_get_None in Hx; contradiction].
  exists m, x. split; [now apply dict_get_In |]. split.
  - intros q Hq. apply (index_last_least _ _ (sorted_reverse_sorted (keys d)) Hm).
    eapply Permutation_in; [apply sorted_reverse_perm | exact Hq].
  - rewrite Hm. simpl. unfold dict_item. rewrite Hx. reflexivity.
Qed.

Lemma price_dict_of_nonempty pbs d :
  pbs <> [] -> price_dict_of py_float pbs = Ok d -> d <> [].
Proof.
  destruct pbs as [| b pbs]; [congruence |]. intros _ Hd Hnil. subst d.
  apply (price_dict_from_keys _ _ _ (Quantity b)) in Hd. simpl in Hd. tauto.
Qed.

(** ** The example table [{1: 10.0, 10: 8.0, 100: 6.0}] *)

Lemma example_sorted : descending (rev example_breaks).
Proof. repeat constructor; simpl; lia. Qed.

Lemma example_NoDup d : Permutation d example_breaks -> NoDup (keys d).
Proof.
  intros Hperm. apply (descending_NoDup_keys d (rev example_breaks)).
  - rewrite Hperm. apply Permutation_sym, Permutation_rev.
  - exact example_sorted.
Qed.

Lemma example_25 d : Permutation d example_breaks -> price_for d 25 = Ok 66%float.
Proof.
  intros Hperm. unfold price_for.
  assert (Hmiss : dict_get d 25 = None).
  { apply dict_get_None. intros Hin.
    apply (Permutation_in _ (Permutation_map fst Hperm)) in Hin.
    simpl in Hin. intuition discriminate. }
  rewrite Hmiss, (greedy_pass_spec d (rev example_breaks)).
  - reflexivity.
  - rewrite Hperm. apply Permutation_sym, Permutation_rev.
  - exact example_sorted.
Qed.

Lemma example_10 d : Permutation d example_breaks -> price_for d 10 = Ok 8%float.
Proof.
  intros Hperm. unfold price_for.
  rewrite (In_dict_get d 10 8%float); [reflexivity | now apply example_NoDup |].
  eapply Permutation_in; [apply Permutation_sym; exact Hperm |].
  simpl. tauto.
Qed.

Lemma find_price_unfold pbs d t :
  price_dict_of py_float pbs = Ok d ->
  find_price_for_quantity py_float pbs t = price_for d t.
Proof. intros Hd. unfold find_price_for_quantity. now rewrite Hd. Qed.

(** C2.  When the target is none of the listed quantities, the loop of
    [find_price_for_quantity] over the quantities sorted by the program
    computes what the specification describes on the breaks listed from
    the largest quantity down: for each quantity that fits in what
    remains, [remaining // quantity] times its unit price is added and
    the remainder is reduced by these multiples.  The function returns
    that total when it is positive (and the fallback of C4 otherwise).
    On [{1: 10.0, 10: 8.0, 100: 6.0}] and 25 it returns 66.0.  Neither
    the distinctness nor the positivity of the quantities is needed. *)
Theorem greedy_decomposition pbs t d sb :
  ~ In t (map Quantity pbs) ->
  price_dict_of py_float pbs = Ok d ->
  Permutation sb d -> descending sb ->
  greedy_pass d t = spec_greedy sb t 0
  /\ (forall total rest,
        spec_greedy sb t 0 = Ok (total, rest) ->
        find_price_for_quantity py_float pbs t =
          if (0 <? total)%float then Ok total else fallback d t)
  /\ (forall pbs' d',
        price_dict_of py_float pbs' = Ok d' -> Permutation d' example_breaks ->
        find_price_for_quantity py_float pbs' 25 = Ok 66%float).
Proof.
  intros Ht Hd Hperm Hdesc.
  pose proof (greedy_pass_spec d sb t Hperm Hdesc) as Hpass.
  split; [exact Hpass |]. split.
  - intros total rest Hspec.
    rewrite (find_price_unfold _ _ _ Hd). unfold price_for.
    rewrite (price_dict_of_miss _ _ _ Hd Ht), Hpass, Hspec. reflexivity.
  - intros pbs' d' Hd' Hperm'.
    rewrite (find_price_unfold _ _ _ Hd'). now apply example_25.
Qed.

(** C3.  When an entry of the price-break list has the target quantity
    (the prices of the list being numbers and its quantities distinct,
    as the data model has them), [find_price_for_quantity] returns the
    unit price of that entry as it is.  On [{1: 10.0, 10: 8.0, 100: 6.0}]
    and 10 it returns 8.0, which is not 8.0 times 10. *)
Theorem exact_match_unit_price pbs t d b :
  price_dict_of py_float pbs = Ok d ->
  NoDup (map Quantity pbs) ->
  In b pbs -> Quantity b = t ->
  (exists unit_price,
      price_of py_float b = Ok unit_price
      /\ find_price_for_quantity py_float pbs t = Ok unit_price)
  /\ (forall pbs' d',
        price_dict_of py_float pbs' = Ok d' -> Permutation d' example_breaks ->
        find_price_for_quantity py_float pbs' 10 = Ok 8%float
        /\ find_price_for_quantity py_float pbs' 10 <> float_mul_int 8%float 10).
Proof.
  intros Hd Hnd Hin Hq. split.
  - destruct (price_dict_from_get _ _ _ _ Hd Hnd Hin) as [x [Hx Hget]].
    exists x. split; [exact Hx |].
    rewrite (find_price_unfold _ _ _ Hd). unfold price_for.
    rewrite <- Hq, Hget. reflexivity.
  - intros pbs' d' Hd' Hperm'.
    rewrite (find_price_unfold _ _ _ Hd'), (example_10 d' Hperm').
    split; [reflexivity |].
    intros Heq.
    apply (f_equal (fun r => match r with
                             | Ok x => (x =? 8)%float
                             | Raise _ => false
                             end)) in Heq.
    vm_compute in Heq. discriminate.
Qed.

(** C4.  When the target is none of the listed quantities of a
    non-empty price-break list and the greedy pass ends with a total of
    zero, [find_price_for_quantity] is the unit price of the smallest
    listed quantity times [target // smallest].  The pass ends with
    zero, for one, when the target is below every listed quantity.  On
    [{100: 5.0}] and 50 the function returns 0. *)
Theorem zero_total_fallback pbs t d total rest :
  pbs <> [] ->
  ~ In t (map Quantity pbs) ->
  price_dict_of py_float pbs = Ok d ->
  greedy_pass d t = Ok (total, rest) ->
  (total =? 0)%float = true ->
  (exists smallest unit_price,
      In (smallest, unit_price) d
      /\ (forall q, In q (keys d) -> smallest <= q)
      /\ find_price_for_quantity py_float pbs t =
           (times <- floordiv t smallest ;; float_mul_int unit_price times))
  /\ (forall t', (forall q, In q (keys d) -> t' < q) ->
        greedy_pass d t' = Ok (0%float, t'))
  /\ (forall pbs',
        price_dict_of py_float pbs' = Ok [(100, 5%float)] ->
        find_price_for_quantity py_float pbs' 50 = Ok 0%float).
Proof.
  intros Hne Ht Hd Hpass Hzero. split; [| split].
  - destruct (fallback_smallest d t (price_dict_of_nonempty _ _ Hne Hd))
      as [m [x [Hin [Hleast Hfb]]]].
    exists m, x. repeat split; try assumption.
    rewrite (find_price_unfold _ _ _ Hd). unfold price_for.
    rewrite (price_dict_of_miss _ _ _ Hd Ht), Hpass. simpl.
    now rewrite (zero_not_positive _ Hzero).
  - intros t' Hbelow. apply greedy_skips_all.
    eapply Permutation_Forall; [apply sorted_reverse_perm |].
    now apply Forall_forall.
  - intros pbs' Hd'. now rewrite (find_price_unfold _ _ _ Hd').
Qed.

(** C6.  On the empty price-break list no target is an exact match, the
    loop runs over no quantity, and [sorted_quantities[-1]] raises
    [IndexError]: the function fails instead of returning a result. *)
Theorem empty_breaks_raise t :
  find_price_for_quantity py_float [] t = Raise IndexError.
Proof. reflexivity. Qed.

End PriceFacts.

(** The examples on price breaks as the API lists them, read with
    [float_of_decimal]. *)

Lemma example_price_dict :
  price_dict_of float_of_decimal example_price_breaks = Ok example_breaks.
Proof. vm_compute. reflexivity. Qed.

Lemma rev_example_perm : Permutation (rev example_breaks) example_breaks.
Proof. apply Permutation_sym, Permutation_rev. Qed.

Lemma greedy_decomposition_witness :
  ~ In 25 (map Quantity example_price_breaks)
  /\ greedy_pass example_breaks 25 = spec_greedy (rev example_breaks) 25 0
  /\ find_price_for_quantity float_of_decimal example_price_breaks 25 = Ok 66%float.
Proof.
  assert (H25 : ~ In 25 (map Quantity example_price_breaks))
    by (simpl; intuition discriminate).
  destruct (greedy_decomposition float_of_decimal example_price_breaks 25
              example_breaks (rev example_breaks)
              H25 example_price_dict rev_example_perm example_sorted)
    as [Hpass [Hret _]].
  split; [exact H25 |]. split; [exact Hpass |].
  exact (Hret 66%float 0 eq_refl).
Defined.

Lemma exact_match_unit_price_witness :
  NoDup (map Quantity example_price_breaks)
  /\ exists unit_price,
       price_of float_of_decimal {| Quantity := 10; Price := "kr 8,0" |} = Ok unit_price
       /\ find_price_for_quantity float_of_decimal example_price_breaks 10 = Ok unit_price.
Proof.
  assert (Hnd : NoDup (map Quantity example_price_breaks)).
  { simpl. repeat constructor; simpl; intuition discriminate. }
  split; [exact Hnd |].
  refine (proj1 (exact_match_unit_price float_of_decimal example_price_breaks 10
                   example_breaks {| Quantity := 10; Price := "kr 8,0" |}
                   example_price_dict Hnd _ eq_refl)).
  simpl. tauto.
Defined.

Lemma zero_total_fallback_witness :
  greedy_pass [(100, 5%float)] 50 = Ok (0%float, 50)
  /\ exists smallest unit_price,
       In (smallest, unit_price) [(100, 5%float)]
       /\ (forall q, In q (keys [(100, 5%float)]) -> smallest <= q)
       /\ find_price_for_quantity float_of_decimal single_price_break 50 =
            (times <- floordiv 50 smallest ;; float_mul_int unit_price times).
Proof.
  split; [reflexivity |].
  refine (proj1 (zero_total_fallback float_of_decimal single_price_break 50
                   [(100, 5%float)] 0%float 50 _ _ _ eq_refl eq_refl)).
  - discriminate.
  - simpl. intuition discriminate.
  - vm_compute. reflexivity.
Defined.

Example single_break_50 :
  find_price_for_quantity float_of_decimal single_price_break 50 = Ok 0%float.
Proof. vm_compute. reflexivity. Qed.

Example zero_priced_tier :
  find_price_for_quantity float_of_decimal
    [ {| Quantity := 10; Price := "0.0" |}; {| Quantity := 3; Price := "5.0" |} ] 20
  = Ok 30%float.
Proof. vm_compute. reflexivity. Qed.

(* ================================================================== *)
(** * URL classification                                               *)
(* ================================================================== *)

(** ** [sub in s] is the substring relation *)

Lemma prefix_app sub s :
  prefix sub s = true <-> exists post, s = (sub ++ post)%string.
Proof.
  revert s. induction sub as [| a sub IH]; intros s.
  - destruct s; simpl; (split; [intros _; eexists; reflexivity | reflexivity]).
  - destruct s as [| b s]; simpl; [split; [discriminate | intros [post [=]]] |].
    destruct (ascii_dec a b) as [-> | Hne].
    + rewrite IH. split; intros [post Hp]; exists post; congruence.
    + split; [discriminate | intros [post Hp]; congruence].
Qed.

Lemma contains_app sub s :
  contains sub s = true <-> exists pre post, s = (pre ++ sub ++ post)%string.
Proof.
  induction s as [| c s IH].
  - cbn [contains]. rewrite orb_false_r, prefix_app. split.
    + intros [post Hp]. now exists EmptyString, post.
    + intros [[| a pre] [post Hp]]; [now exists post | discriminate].
  - cbn [contains]. rewrite orb_true_iff, IH, prefix_app. split.
    + intros [[post Hp] | [pre [post Hp]]].
      * now exists EmptyString, post.
      * exists (String c pre), post. simpl. now rewrite Hp.
    + intros [[| a pre] [post Hp]].
      * left. now exists post.
      * right. exists pre, post. simpl in Hp. congruence.
Qed.

(** ** [path.split('/')[-1]] is the final segment *)

Lemma split_no_slash s : has_char "/" s = false -> split "/" s = [s].
Proof.
  induction s as [| c s IH]; simpl; [reflexivity |].
  rewrite orb_false_iff. intros [Hc Hs]. rewrite Hc, (IH Hs). reflexivity.
Qed.

Lemma split_slash s :
  has_char "/" s = true -> exists seg x segs, split "/" s = seg :: x :: segs.
Proof.
  induction s as [| c s IH]; simpl; [discriminate |].
  destruct (Ascii.eqb c "/") eqn:Hc; simpl.
  - intros _. destruct (has_char "/" s) eqn:Hs.
    + destruct (IH eq_refl) as [seg [x [segs ->]]]. now exists EmptyString, seg, (x :: segs).
    + rewrite (split_no_slash _ Hs). now exists EmptyString, s, [].
  - intros Hs. destruct (IH Hs) as [seg [x [segs ->]]].
    now exists (String c seg), x, segs.
Qed.

Lemma final_segment_no_slash s : has_char "/" s = false -> final_segment s = s.
Proof.
  destruct s as [| c s]; simpl; [reflexivity |].
  rewrite orb_false_iff. intros [-> ->]. reflexivity.
Qed.

Lemma index_last_split s : index_last (split "/" s) = Ok (final_segment s).
Proof.
  induction s as [| c s IH]; [reflexivity |].
  cbn [split final_segment].
  destruct (has_char "/" s) eqn:Hs.
  - destruct (split_slash _ Hs) as [seg [x [segs Hsplit]]].
    rewrite Hsplit in *. now destruct (Ascii.eqb c "/").
  - rewrite (split_no_slash _ Hs). rewrite (final_segment_no_slash _ Hs) in IH.
    now destruct (Ascii.eqb c "/").
Qed.

Section UrlFacts.

Variable urlparse : string -> result ParseResult.

(** ** The loop body against the classes *)

Lemma part_number_of_url_classify url :
  match classify urlparse url with
  | Supplier part_identifier =>
      part_number_of_url urlparse url = Ok (Some part_identifier)
  | NonSupplier => part_number_of_url urlparse url = Ok None
  | ErrorUrl => exists e, part_number_of_url urlparse url = Raise e
  end.
Proof.
  unfold classify, part_number_of_url.
  destruct (urlparse url) as [parsed | e]; simpl; [| now exists e].
  destruct (contains "mouser.com" (lower (netloc parsed))); [| reflexivity].
  rewrite index_last_split. reflexivity.
Qed.

Lemma extract_fold urls :
  forall acc events,
    fst (fold_left (extract_one urlparse) urls (acc, events))
    = classified urlparse acc urls.
Proof.
  induction urls as [| url urls IH]; intros acc events; simpl.
  - unfold classified. simpl. rewrite !app_nil_r. now destruct acc.
  - pose proof (part_number_of_url_classify url) as Hc.
    unfold classified in *. simpl.
    destruct (classify urlparse url) as [p | |].
    + rewrite Hc, IH. simpl. now rewrite <- app_assoc.
    + rewrite Hc, IH. simpl. now rewrite <- app_assoc.
    + destruct Hc as [e ->]. rewrite IH. simpl. now rewrite <- app_assoc.
Qed.


Lemma extract_classified urls :
  fst (extract_part_numbers_from_urls urlparse urls)
  = {| mouser_part_numbers :=
         flat_map (fun url => supplier_part (classify urlparse url)) urls;
       non_mouser_urls :=
         filter (fun url => is_non_supplier (classify urlparse url)) urls;
       error_urls :=
         filter (fun url => is_error (classify urlparse url)) urls |}.
Proof. unfold extract_part_numbers_from_urls. now rewrite extract_fold. Qed.


(** C10, amended.  A URL that parses and whose network location, put in
    lower case, has "mouser.com" anywhere inside is a supplier URL,
    whatever surrounds the marker: its final path segment, without the
    blanks around it, is among the part identifiers, and the URL is in
    neither of the other two lists. *)
Theorem marker_anywhere_in_netloc url parsed before after urls :
  urlparse url = Ok parsed ->
  lower (netloc parsed) = (before ++ "mouser.com" ++ after)%string ->
  In url urls ->
  classify urlparse url = Supplier (strip (final_segment (path parsed)))
  /\ In (strip (final_segment (path parsed)))
        (mouser_part_numbers (fst (extract_part_numbers_from_urls urlparse urls)))
  /\ ~ In url (non_mouser_urls (fst (extract_part_numbers_from_urls urlparse urls)))
  /\ ~ In url (error_urls (fst (extract_part_numbers_from_urls urlparse urls))).
Proof.
  intros Hparse Hnetloc Hin.
  assert (Hclass : classify urlparse url = Supplier (strip (final_segment (path parsed)))).
  { unfold classify. rewrite Hparse.
    rewrite (proj2 (contains_app "mouser.com" (lower (netloc parsed))));
      [reflexivity | now exists before, after]. }
  rewrite extract_classified. simpl.
  split; [exact Hclass |]. split; [| split].
  - apply in_flat_map. exists url. split; [exact Hin |].
    rewrite Hclass. now left.
  - rewrite filter_In, Hclass. simpl. intros [_ Habs]. discriminate.
  - rewrite filter_In, Hclass. simpl. intros [_ Habs]. discriminate.
Qed.

End UrlFacts.

(** The classes on URLs read with [urlparse_model]. *)

Example classify_examples :
  classify urlparse_model "https://www.mouser.com/ProductDetail/595-LM358P"
    = Supplier "595-LM358P"
  /\ classify urlparse_model "https://notmouser.com/parts/LM358" = Supplier "LM358"
  /\ classify urlparse_model "https://WWW.MOUSER.COM/ProductDetail/LM358?qs=1"
     = Supplier "LM358"
  /\ classify urlparse_model "https://www.ti.com/product/LM358" = NonSupplier
  /\ classify urlparse_model "~" = NonSupplier
  /\ classify urlparse_model "http://[::1/LM358" = ErrorUrl.
Proof. vm_compute. repeat split. Qed.


(** C10, the claim as it stands fails: the host of this URL contains the
    marker, its final path segment starts with a blank, and its part
    identifier does not. *)
Lemma marker_host_segment_is_stripped :
  urlparse_model "https://notmouser.com/parts/ XYZ"
    = Ok {| scheme := "https"; netloc := "notmouser.com";
            path := "/parts/ XYZ"; params := ""; query := ""; fragment := "" |}
  /\ contains "mouser.com" (lower "notmouser.com") = true
  /\ final_segment "/parts/ XYZ" = " XYZ"
  /\ fst (extract_part_numbers_from_urls urlparse_model
            ["https://notmouser.com/parts/ XYZ"])
     = {| mouser_part_numbers := ["XYZ"]; non_mouser_urls := []; error_urls := [] |}
  /\ "XYZ" <> " XYZ".
Proof. vm_compute. repeat split. discriminate. Qed.

Lemma marker_anywhere_in_netloc_witness :
  classify urlparse_model "https://mouser.com.example.net/parts/LM358"
    = Supplier "LM358"
  /\ In "LM358"
        (mouser_part_numbers
           (fst (extract_part_numbers_from_urls urlparse_model
                   ["https://www.ti.com/product/LM358";
                    "https://mouser.com.example.net/parts/LM358"])))
  /\ ~ In "https://mouser.com.example.net/parts/LM358"
        (non_mouser_urls
           (fst (extract_part_numbers_from_urls urlparse_model
                   ["https://www.ti.com/product/LM358";
                    "https://mouser.com.example.net/parts/LM358"])))
  /\ ~ In "https://mouser.com.example.net/parts/LM358"
        (error_urls
           (fst (extract_part_numbers_from_urls urlparse_model
                   ["https://www.ti.com/product/LM358";
                    "https://mouser.com.example.net/parts/LM358"]))).
Proof.
  refine (marker_anywhere_in_netloc urlparse_model
            "https://mouser.com.example.net/parts/LM358"
            {| scheme := "https"; netloc := "mouser.com.example.net";
               path := "/parts/LM358"; params := ""; query := ""; fragment := "" |}
            "" ".example.net"
            ["https://www.ti.com/product/LM358";
             "https://mouser.com.example.net/parts/LM358"] _ _ _).
  - vm_compute. reflexivity.
  - vm_compute. reflexivity.
  - simpl. tauto.
Defined.

(* ================================================================== *)
(** * The fetch loop                                                   *)
(* ================================================================== *)

Section LoopFacts.

Variable net : network.
Variables api_key option_ : string.
Variable parts : list string.

(** ** What a call of [search_part_number] does *)

(** A request that fails, with a line about it that is printed: the
    call returns [None]. *)
Lemma search_part_number_hard n part_number :
  hard_reply (net n (request_for api_key option_ part_number)) = true ->
  print_error net n (request_for api_key option_ part_number) = None ->
  exists m,
    APIManager.search_part_number net n part_number api_key option_
    = (Ok JNull, [Post (request_for api_key option_ part_number); Log m]).
Proof.
  unfold APIManager.search_part_number, request_for. intros Hh ->. revert Hh.
  destruct (post net n _) as [| status_code [j |]]; simpl.
  - intros _. now exists (MsgRequestError part_number).
  - unfold APIManager.raise_for_status.
    destruct ((400 <=? status_code) && (status_code <? 600)); simpl;
      [| discriminate].
    intros _. now exists (MsgHTTPError part_number).
  - unfold APIManager.raise_for_status.
    destruct ((400 <=? status_code) && (status_code <? 600)); simpl; intros _.
    + now exists (MsgHTTPError part_number).
    + now exists (MsgRequestError part_number).
Qed.

(** A request that fails, with a line about it on which [print] raises:
    the call raises what [print] raised. *)
Lemma search_part_number_raises n part_number e :
  hard_reply (net n (request_for api_key option_ part_number)) = true ->
  print_error net n (request_for api_key option_ part_number) = Some e ->
  APIManager.search_part_number net n part_number api_key option_
  = (Raise e, [Post (request_for api_key option_ part_number)]).
Proof.
  unfold APIManager.search_part_number, request_for. intros Hh ->. revert Hh.
  destruct (post net n _) as [| status_code [j |]]; simpl.
  - reflexivity.
  - unfold APIManager.raise_for_status.
    destruct ((400 <=? status_code) && (status_code <? 600)); simpl;
      [reflexivity | discriminate].
  - unfold APIManager.raise_for_status.
    now destruct ((400 <=? status_code) && (status_code <? 600)).
Qed.

(** A request that does not fail: the call returns the document. *)
Lemma search_part_number_document n part_number :
  hard_reply (net n (request_for api_key option_ part_number)) = false ->
  exists j,
    APIManager.search_part_number net n part_number api_key option_
    = (Ok j, [Post (request_for api_key option_ part_number)])
    /\ truthy j
       = negb (soft_reply (net n (request_for api_key option_ part_number))).
Proof.
  unfold APIManager.search_part_number, request_for.
  destruct (post net n _) as [| status_code [j |]]; simpl; try discriminate.
  - unfold APIManager.raise_for_status.
    destruct ((400 <=? status_code) && (status_code <? 600)); simpl;
      try discriminate.
    intros _. exists j. split; [reflexivity |]. now rewrite negb_involutive.
  - rewrite orb_true_r. discriminate.
Qed.

(** One request, then at most a line; or one request and the exception
    of [print], when the request failed and the line was not taken. *)
Lemma search_part_number_cases n part_number :
  (exists j logs,
     APIManager.search_part_number net n part_number api_key option_
     = (Ok j, Post (request_for api_key option_ part_number) :: logs)
     /\ forallb is_log logs = true
     /\ (no_document (net n (request_for api_key option_ part_number)) = true ->
         truthy j = false))
  \/ (exists e,
        APIManager.search_part_number net n part_number api_key option_
        = (Raise e, [Post (request_for api_key option_ part_number)])
        /\ hard_reply (net n (request_for api_key option_ part_number)) = true
        /\ print_error net n (request_for api_key option_ part_number) = Some e).
Proof.
  unfold no_document.
  destruct (hard_reply (net n (request_for api_key option_ part_number))) eqn:Hh.
  - destruct (print_error net n (request_for api_key option_ part_number))
      as [e |] eqn:Hprint.
    + right. exists e. split; [| now split].
      now apply search_part_number_raises.
    + left. destruct (search_part_number_hard _ _ Hh Hprint) as [m ->].
      exists JNull, [Log m]. repeat split.
  - left. destruct (search_part_number_document _ _ Hh) as [j [-> Hj]].
    exists j, []. repeat split. simpl. intros Hs. now rewrite Hj, Hs.
Qed.


(** ** One turn *)

(** A turn is for the identifier at [index] and sends one request for
    it.  It records a result and advances, or changes nothing but the
    clock, or records the identifier in the error list and advances. *)
Lemma step_cases st o st' events :
  step net api_key option_ parts st = Some (o, st', events) ->
  exists p,
    nth_error parts (index st) = Some p
    /\ In (Post (request_for api_key option_ p)) events
    /\ sent st' = S (sent st)
    /\ ((exists r, o = Success p r /\ truthy r = true
                   /\ results st' = dict_set (results st) p r
                   /\ index st' = S (index st)
                   /\ api_error_parts st' = api_error_parts st)
        \/ (o = SoftFailure p /\ results st' = results st
            /\ index st' = index st
            /\ api_error_parts st' = api_error_parts st)
        \/ (o = HardFailure p /\ results st' = results st
            /\ index st' = S (index st)
            /\ api_error_parts st' = api_error_parts st ++ [p])).
Proof.
  unfold step. destruct (nth_error parts (index st)) as [p |]; [| discriminate].
  destruct (search_part_number_cases (sent st) p)
    as [[j [logs [Hcall _]]] | [e [Hcall _]]]; rewrite Hcall; unfold loop_body.
  - destruct (truthy j) eqn:Hj; intros [= <- <- <-]; exists p; simpl;
      (split; [reflexivity |]); (split; [auto |]); (split; [reflexivity |]).
    + left. now exists j.
    + right. left. now repeat split.
  - intros [= <- <- <-]. exists p. simpl.
    split; [reflexivity |]. split; [auto |]. split; [reflexivity |].
    right. right. now repeat split.
Qed.



(** ** The whole loop *)

(** The error list grows by the identifiers of the turns that ended in
    the [except] branch. *)
Lemma while_loop_errors fuel :
  forall st outs final events,
    while_loop net api_key option_ parts fuel st = Some (outs, final, events) ->
    api_error_parts final = api_error_parts st ++ hard_parts outs.
Proof.
  induction fuel as [| fuel IH]; intros st outs final events; simpl;
    destruct (step net api_key option_ parts st) as [[[o st'] ev] |] eqn:Hstep;
    try discriminate;
    try (intros [= <- <- <-]; simpl; now rewrite app_nil_r).
  destruct (while_loop net api_key option_ parts fuel st')
    as [[[os f] evs] |] eqn:Hloop; [| discriminate].
  intros [= <- <- <-]. rewrite (IH _ _ _ _ Hloop).
  destruct (step_cases _ _ _ _ Hstep) as [p [_ [_ [_ Ho]]]].
  destruct Ho as [[r [-> [_ [_ [_ ->]]]]] | [[-> [_ [_ ->]]] | [-> [_ [_ ->]]]]];
    simpl; [reflexivity | reflexivity |].
  now rewrite <- app_assoc.
Qed.

Lemma while_loop_results fuel :
  forall st outs final events,
    while_loop net api_key option_ parts fuel st = Some (outs, final, events) ->
    NoDup (keys (results st)) ->
    NoDup (keys (results final))
    /\ forall p, In p (keys (results final))
                 <-> In p (keys (results st)) \/ exists r, In (Success p r) outs.
Proof.
  induction fuel as [| fuel IH]; intros st outs final events; simpl;
    destruct (step net api_key option_ parts st) as [[[o st'] ev] |] eqn:Hstep;
    try discriminate;
    try (intros [= <- <- <-] Hnd; split; [exact Hnd |];
         intros p; split; [tauto | intros [H | [r []]]; exact H]).
  destruct (while_loop net api_key option_ parts fuel st')
    as [[[os f] evs] |] eqn:Hloop; [| discriminate].
  intros [= <- <- <-] Hnd.
  destruct (step_cases _ _ _ _ Hstep) as [q [_ [_ [_ Ho]]]].
  destruct Ho as [[r [-> [_ [Hres _]]]] | [[-> [Hres _]] | [-> [Hres _]]]].
  - destruct (IH _ _ _ _ Hloop) as [Hnd' Hkeys].
    { rewrite Hres. now apply NoDup_dict_set. }
    split; [exact Hnd' |]. intros p. rewrite Hkeys, Hres, In_keys_dict_set.
    split.
    + intros [[Hin | ->] | [r' Hr']].
      * now left.
      * right. exists r. now left.
      * right. exists r'. now right.
    + intros [Hin | [r' [Hr' | Hr']]].
      * now left; left.
      * injection Hr' as <- <-. now left; right.
      * right. now exists r'.
  - destruct (IH _ _ _ _ Hloop) as [Hnd' Hkeys].
    { now rewrite Hres. }
    split; [exact Hnd' |]. intros p. rewrite Hkeys, Hres.
    split.
    + intros [Hin | [r' Hr']]; [now left | right; exists r'; now right].
    + intros [Hin | [r' [Hr' | Hr']]];
        [now left | discriminate | right; now exists r'].
  - destruct (IH _ _ _ _ Hloop) as [Hnd' Hkeys].
    { now rewrite Hres. }
    split; [exact Hnd' |]. intros p. rewrite Hkeys, Hres.
    split.
    + intros [Hin | [r' Hr']]; [now left | right; exists r'; now right].
    + intros [Hin | [r' [Hr' | Hr']]];
        [now left | discriminate | right; now exists r'].
Qed.

End LoopFacts.

Section LoopClaims.

Variable net : network.
Variables api_key option_ : string.
Variable parts : list string.



(** C9.  When the loop ends, the keys of [results] are pairwise
    distinct, every identifier fetched with success keys exactly one
    entry, however often it stands in the input, and every key is an
    identifier of the input that was fetched with success. *)
Theorem result_keys_unique fuel first outs final events :
  while_loop net api_key option_ parts fuel (initial_state first)
  = Some (outs, final, events) ->
  NoDup (keys (results final))
  /\ (forall p r, In (Success p r) outs ->
        count_occ string_dec (keys (results final)) p = 1%nat)
  /\ (forall p, In p (keys (results final)) -> exists r, In (Success p r) outs).
Proof.
  intros Hloop.
  destruct (while_loop_results _ _ _ _ _ _ _ _ _ Hloop) as [Hnd Hkeys];
    [constructor |].
  split; [exact Hnd |]. split.
  - intros p r Hin. apply NoDup_count_occ'; [exact Hnd |].
    apply Hkeys. right. now exists r.
  - intros p Hin. apply Hkeys in Hin as [[] | Hr]. exact Hr.
Qed.

End LoopClaims.

Lemma net_down_never_ends fuel :
  forall n,
    while_loop net_down "KEY" "Exact" ["595-LM358P"] fuel
      {| index := 0; results := []; api_error_parts := []; sent := n |} = None.
Proof.
  induction fuel as [| fuel IH]; intros n; [reflexivity |].
  cbn [while_loop].
  change (step net_down "KEY" "Exact" ["595-LM358P"]
            {| index := 0; results := []; api_error_parts := []; sent := n |})
    with (Some (SoftFailure "595-LM358P",
                {| index := 0; results := []; api_error_parts := []; sent := S n |},
                [ Log (MsgSearching "595-LM358P");
                  Post (request_for "KEY" "Exact" "595-LM358P");
                  Log (MsgRequestError "595-LM358P");
                  Log (MsgRateLimit 15);
                  Sleep 15 ])).
  cbv beta iota. now rewrite IH.
Qed.

(** C1.  A request that raises is not a hard failure to the loop:
    [search_part_number] catches the exception, logs it and returns
    [None], and the loop takes that for a rate limit.  With one
    identifier and a network that is down, the first turn leaves
    [index] at 0 and the error list empty and sleeps, and the loop is
    still running after any number of turns. *)
Theorem transport_error_is_retried :
  step net_down "KEY" "Exact" ["595-LM358P"] (initial_state 0)
  = Some (SoftFailure "595-LM358P",
          {| index := 0; results := []; api_error_parts := []; sent := 1 |},
          [ Log (MsgSearching "595-LM358P");
            Post (request_for "KEY" "Exact" "595-LM358P");
            Log (MsgRequestError "595-LM358P");
            Log (MsgRateLimit 15);
            Sleep 15 ])
  /\ (forall fuel,
        while_loop net_down "KEY" "Exact" ["595-LM358P"] fuel (initial_state 0) = None).
Proof.
  split; [reflexivity |].
  intros fuel. apply net_down_never_ends.
Qed.

(** The loop against [net_limited]. *)

Lemma example_run_ends :
  exists events, example_run = Some (example_outcomes, example_final, events).
Proof. eexists. vm_compute. reflexivity. Qed.


Lemma result_keys_unique_witness :
  keys (results example_final) = ["595-LM358P"; "511-NE555"]
  /\ NoDup (keys (results example_final))
  /\ count_occ string_dec (keys (results example_final)) "595-LM358P" = 1%nat.
Proof.
  destruct example_run_ends as [events Hrun].
  destruct (result_keys_unique net_limited "KEY" "Exact" example_parts 5 O
              example_outcomes example_final events Hrun) as [Hnd [Hone _]].
  split; [reflexivity |]. split; [exact Hnd |].
  apply (Hone "595-LM358P" found). simpl. tauto.
Defined.

(* ================================================================== *)
(** * The credential                                                   *)
(* ================================================================== *)

Lemma get_api_key_environ k cfg :
  k <> "" -> APIManager.get_api_key (Some k) cfg = (Ok k, []).
Proof.
  intros Hk. apply String.eqb_neq in Hk.
  unfold APIManager.get_api_key, APIManager.get_api_key_try, APIManager.unset.
  rewrite Hk. simpl. rewrite Hk. reflexivity.
Qed.

Lemma get_api_key_config environ cfg :
  APIManager.unset environ = true ->
  snd (APIManager.get_api_key environ cfg) = [OpenFile "mouser_api_keys.yaml"]
  /\ match config_key cfg with
     | Some k => fst (APIManager.get_api_key environ cfg) = Ok k
     | None => exists e, fst (APIManager.get_api_key environ cfg) = Raise e
     end.
Proof.
  intros Hunset.
  unfold APIManager.get_api_key, APIManager.get_api_key_try. rewrite Hunset.
  split.
  - now destruct (k <- APIManager.read_config cfg ;; Ok (Some k)) as [[s |] | []];
      simpl; try destruct (s =? "")%string.
  - unfold config_key.
    destruct cfg as [| | | [| entries |]]; simpl; try (eexists; reflexivity).
    destruct (dict_get entries "search_api_key") as [[s |] |]; simpl;
      try (eexists; reflexivity).
    destruct (strip s =? "")%string; [eexists |]; reflexivity.
Qed.

(** C8.  [get_api_key] returns the environment variable when it is set
    and not empty, whatever the configuration file is and without
    opening it.  When the variable is absent or empty it opens the file
    and returns the key the file supplies; when the file supplies none
    it raises.  When [get_api_key] raises, [read_csv_and_search_parts]
    raises the same exception, and no request has been sent. *)
Theorem api_key_sources environ cfg :
  (forall k, environ = Some k -> k <> "" ->
     APIManager.get_api_key environ cfg = (Ok k, []))
  /\ (APIManager.unset environ = true ->
        snd (APIManager.get_api_key environ cfg) = [OpenFile "mouser_api_keys.yaml"]
        /\ match config_key cfg with
           | Some k => fst (APIManager.get_api_key environ cfg) = Ok k
           | None => exists e, fst (APIManager.get_api_key environ cfg) = Raise e
           end)
  /\ (forall e, fst (APIManager.get_api_key environ cfg) = Raise e ->
        forall urlparse net file option_ fuel,
        exists events,
          read_csv_and_search_parts urlparse environ cfg net file option_ fuel
          = Some (Raise e, events)
          /\ existsb is_post events = false).
Proof.
  split; [| split].
  - intros k -> Hk. now apply get_api_key_environ.
  - apply get_api_key_config.
  - intros e He urlparse net file option_ fuel.
    unfold read_csv_and_search_parts.
    destruct (APIManager.get_api_key environ cfg) as [[k | e'] events] eqn:Hkey;
      simpl in He; [discriminate |].
    injection He as ->. exists events. split; [reflexivity |].
    destruct (APIManager.unset environ) eqn:Hunset.
    + pose proof (proj1 (get_api_key_config environ cfg Hunset)) as Hev.
      rewrite Hkey in Hev. simpl in Hev. now subst events.
    + destruct environ as [k |]; [| discriminate]. simpl in Hunset.
      rewrite get_api_key_environ in Hkey; [discriminate |].
      intros ->. discriminate.
Qed.

Example api_key_examples :
  APIManager.get_api_key (Some "abc123") Missing = (Ok "abc123", [])
  /\ APIManager.get_api_key None
       (Loaded (YMapping [("search_api_key", YStr " abc123 ")]))
     = (Ok "abc123", [OpenFile "mouser_api_keys.yaml"])
  /\ APIManager.get_api_key (Some "") Missing
     = (Raise FileNotFoundError, [OpenFile "mouser_api_keys.yaml"])
  /\ APIManager.get_api_key None (Loaded (YMapping []))
     = (Raise (Exception ValueError), [OpenFile "mouser_api_keys.yaml"])
  /\ APIManager.get_api_key None (Loaded YNone)
     = (Raise (Exception ValueError), [OpenFile "mouser_api_keys.yaml"]).
Proof. vm_compute. repeat split. Qed.

(* ================================================================== *)
(** * A whole run                                                      *)
(* ================================================================== *)

(** One supplier URL among three rows gives a result set with one key;
    the other two URLs are reported, and one request is sent. *)
Example three_row_bom :
  exists events,
    read_csv_and_search_parts urlparse_model (Some "KEY") Missing net_up
      example_csv "Exact" 1
    = Some (Ok [("595-LM358P", found)], events)
    /\ filter is_post events = [Post (request_for "KEY" "Exact" "595-LM358P")]
    /\ In (Log (MsgLine "https://www.ti.com/product/LM358")) events
    /\ In (Log (MsgUrlError "http://[::1/LM358")) events.
Proof.
  eexists. split; [vm_compute; reflexivity |].
  split; [reflexivity | simpl; tauto].
Qed.

(** With the network down the same run is still waiting after any
    number of turns. *)
Example three_row_bom_network_down :
  read_csv_and_search_parts urlparse_model (Some "KEY") Missing net_down
    example_csv "Exact" 50 = None.
Proof. vm_compute. reflexivity. Qed.

(* ================================================================== *)
(** * More on the built-ins                                            *)
(* ================================================================== *)

Lemma rstrip_by_idem drop s : rstrip_by drop (rstrip_by drop s) = rstrip_by drop s.
Proof.
  induction s as [| c s IH]; [reflexivity |].
  cbn [rstrip_by]. destruct (rstrip_by drop s) as [| a t] eqn:Hr.
  - destruct (drop c) eqn:Hc; [reflexivity |]. cbn [rstrip_by]. now rewrite Hc.
  - cbn [rstrip_by]. cbn [rstrip_by] in IH.
    destruct (rstrip_by drop t) as [| b u]; now rewrite IH.
Qed.

Lemma lstrip_by_head drop s :
  lstrip_by drop s = EmptyString
  \/ exists c t, lstrip_by drop s = String c t /\ drop c = false.
Proof.
  induction s as [| c s IH]; [now left |]. simpl.
  destruct (drop c) eqn:Hc; [exact IH |]. right. now exists c, s.
Qed.

Lemma rstrip_by_head drop c t :
  drop c = false -> exists u, rstrip_by drop (String c t) = String c u.
Proof.
  intros Hc. cbn [rstrip_by]. destruct (rstrip_by drop t) as [| a u].
  - rewrite Hc. now exists EmptyString.
  - now exists (String a u).
Qed.

Lemma strip_idem s : strip (strip s) = strip s.
Proof.
  unfold strip.
  destruct (lstrip_by_head isspace s) as [-> | [c [t [-> Hc]]]]; [reflexivity |].
  destruct (rstrip_by_head isspace c t Hc) as [u Hu]. rewrite Hu.
  cbn [lstrip_by]. rewrite Hc, <- Hu. apply rstrip_by_idem.
Qed.

Lemma has_char_lstrip_by drop a s :
  has_char a (lstrip_by drop s) = true -> has_char a s = true.
Proof.
  induction s as [| c s IH]; simpl; [discriminate |].
  destruct (drop c); simpl; [| exact (fun H => H)].
  intros H. rewrite (IH H). apply orb_true_r.
Qed.

Lemma has_char_rstrip_by drop a s :
  has_char a (rstrip_by drop s) = true -> has_char a s = true.
Proof.
  induction s as [| c s IH]; cbn [rstrip_by]; [discriminate |].
  destruct (rstrip_by drop s) as [| b t].
  - destruct (drop c); simpl; [discriminate |].
    rewrite orb_false_r. intros ->. reflexivity.
  - intros H. change (Ascii.eqb c a || has_char a (String b t) = true) in H.
    change (Ascii.eqb c a || has_char a s = true).
    apply orb_true_iff in H as [H | H]; [now rewrite H |].
    rewrite (IH H). apply orb_true_r.
Qed.

Lemma has_char_strip a s : has_char a s = false -> has_char a (strip s) = false.
Proof.
  intros Hs. destruct (has_char a (strip s)) eqn:H; [| reflexivity].
  unfold strip in H. apply has_char_rstrip_by, has_char_lstrip_by in H. congruence.
Qed.

Lemma final_segment_no_slash_in s : has_char "/" (final_segment s) = false.
Proof.
  induction s as [| c s IH]; [reflexivity |]. cbn [final_segment].
  destruct (has_char "/" s) eqn:Hs; [exact IH |].
  destruct (Ascii.eqb c "/") eqn:Hc; [exact Hs |].
  cbn [has_char]. now rewrite Hc, Hs.
Qed.

Lemma final_segment_trailing_slash s :
  final_segment (s ++ "/")%string = EmptyString.
Proof.
  induction s as [| c s IH]; [reflexivity |].
  change ((String c s ++ "/")%string) with (String c (s ++ "/")%string).
  cbn [final_segment].
  assert (Hs : has_char "/" (s ++ "/")%string = true).
  { clear. induction s as [| a s IH]; [reflexivity |]. simpl. rewrite IH.
    apply orb_true_r. }
  destruct s as [| a s].
  - simpl. destruct (Ascii.eqb c "/"); reflexivity.
  - rewrite Hs. exact IH.
Qed.

(* ================================================================== *)
(** * More on the price resolver                                       *)
(* ================================================================== *)

Section MorePriceFacts.

Variable py_float : string -> option float.

Lemma price_of_cases b :
  (exists x, py_float (cleaned (Price b)) = Some x /\ price_of py_float b = Ok x)
  \/ (py_float (cleaned (Price b)) = None /\ price_of py_float b = Raise ValueError).
Proof.
  unfold price_of, cleaned.
  destruct (py_float _) as [x |]; [left; now exists x | now right].
Qed.

Lemma price_dict_from_raise pbs b :
  In b pbs -> py_float (cleaned (Price b)) = None ->
  forall acc, price_dict_from py_float pbs acc = Raise ValueError.
Proof.
  intros Hin Hnone. induction pbs as [| b0 pbs IH]; [destruct Hin |].
  intros acc. simpl.
  destruct (price_of_cases b0) as [[x [Hx ->]] | [Hb0 ->]]; [| reflexivity].
  simpl. destruct Hin as [-> | Hin]; [congruence | now apply IH].
Qed.

Lemma price_dict_from_raise_inv pbs :
  forall acc e,
    price_dict_from py_float pbs acc = Raise e ->
    e = ValueError /\ exists b, In b pbs /\ py_float (cleaned (Price b)) = None.
Proof.
  induction pbs as [| b0 pbs IH]; intros acc e; simpl; [discriminate |].
  destruct (price_of_cases b0) as [[x [_ ->]] | [Hb0 ->]]; simpl.
  - intros H. destruct (IH _ _ H) as [-> [b [Hin Hb]]].
    split; [reflexivity |]. exists b. split; [now right | exact Hb].
  - intros [= <-]. split; [reflexivity |]. exists b0. split; [now left | exact Hb0].
Qed.

Lemma price_dict_from_app l1 l2 :
  forall acc,
    price_dict_from py_float (l1 ++ l2) acc
    = (d <- price_dict_from py_float l1 acc ;; price_dict_from py_float l2 d).
Proof.
  induction l1 as [| b l1 IH]; intros acc; simpl; [reflexivity |].
  destruct (price_of py_float b); simpl; [apply IH | reflexivity].
Qed.

(** X1.  One price string that [float] rejects makes
    [find_price_for_quantity] raise [ValueError], whatever the target
    is and whatever the other entries are: also when another entry has
    the target as its quantity. *)
Theorem unparsable_price_raises pbs b t :
  In b pbs ->
  py_float (cleaned (Price b)) = None ->
  find_price_for_quantity py_float pbs t = Raise ValueError.
Proof.
  intros Hin Hnone. unfold find_price_for_quantity, price_dict_of.
  now rewrite (price_dict_from_raise pbs b Hin Hnone).
Qed.

(** X2.  When several entries have the target as their quantity, the
    unit price returned is that of the last of them in the list. *)
Theorem last_duplicate_wins before b after d :
  price_dict_of py_float (before ++ b :: after) = Ok d ->
  ~ In (Quantity b) (map Quantity after) ->
  exists x,
    py_float (cleaned (Price b)) = Some x
    /\ find_price_for_quantity py_float (before ++ b :: after) (Quantity b) = Ok x.
Proof.
  intros Hd Hlast.
  rewrite (find_price_unfold _ _ _ _ Hd). unfold price_for.
  unfold price_dict_of in Hd. rewrite price_dict_from_app in Hd.
  destruct (price_dict_from py_float before []) as [d1 |]; [| discriminate].
  simpl in Hd.
  destruct (price_of_cases b) as [[x [Hx Hok]] | [_ Hr]];
    rewrite ?Hok, ?Hr in Hd; [| discriminate].
  simpl in Hd. exists x. split; [exact Hx |].
  rewrite (price_dict_from_get_other _ _ _ _ _ Hd Hlast), dict_get_set_same.
  reflexivity.
Qed.

(** ** The order of the entries *)

Lemma greedy_ext (d d' : dict Z float) qs :
  (forall k, dict_get d k = dict_get d' k) ->
  forall total remaining, greedy d qs total remaining = greedy d' qs total remaining.
Proof.
  intros Hext. induction qs as [| q qs IH]; intros total remaining; simpl;
    [reflexivity |].
  destruct (q <=? remaining); [| apply IH].
  unfold dict_item. rewrite Hext.
  destruct (floordiv remaining q) as [n |]; simpl; [| reflexivity].
  destruct (dict_get d' q) as [x |]; simpl; [| reflexivity].
  destruct (int_mul_float n x) as [y |]; simpl; [| reflexivity].
  destruct (modulo remaining q) as [m |]; simpl; [apply IH | reflexivity].
Qed.

Lemma sorted_reverse_ext (l l' : list Z) :
  NoDup l -> NoDup l' -> (forall k, In k l <-> In k l') ->
  sorted_reverse l = sorted_reverse l'.
Proof.
  intros Hnd Hnd' Hin.
  assert (Hperm : Permutation l l') by (now apply NoDup_Permutation).
  apply strictly_sorted_unique.
  - rewrite <- !sorted_reverse_perm. exact Hperm.
  - apply sorted_NoDup_strict; [apply sorted_reverse_sorted |].
    eapply Permutation_NoDup; [apply sorted_reverse_perm | exact Hnd].
  - apply sorted_NoDup_strict; [apply sorted_reverse_sorted |].
    eapply Permutation_NoDup; [apply sorted_reverse_perm | exact Hnd'].
Qed.

Lemma price_for_ext (d d' : dict Z float) t :
  (forall k, dict_get d k = dict_get d' k) ->
  NoDup (keys d) -> NoDup (keys d') ->
  price_for d t = price_for d' t.
Proof.
  intros Hext Hnd Hnd'.
  assert (Hsorted : sorted_reverse (keys d) = sorted_reverse (keys d')).
  { apply sorted_reverse_ext; try assumption.
    intros k. split; intros Hk.
    - destruct (dict_get d' k) eqn:Hg;
        [now apply dict_get_In, (in_map fst) in Hg |].
      rewrite <- Hext in Hg. apply dict_get_None in Hg. contradiction.
    - destruct (dict_get d k) eqn:Hg;
        [now apply dict_get_In, (in_map fst) in Hg |].
      rewrite Hext in Hg. apply dict_get_None in Hg. contradiction. }
  unfold price_for, greedy_pass, fallback, dict_item.
  rewrite Hext, Hsorted, (greedy_ext d d' _ Hext).
  destruct (dict_get d' t); [reflexivity |].
  destruct (greedy d' _ _ _) as [[total rest] |]; simpl; [| reflexivity].
  destruct (0 <? total)%float; [reflexivity |].
  destruct (index_last (sorted_reverse (keys d'))) as [m |]; simpl; [| reflexivity].
  now rewrite Hext.
Qed.

Lemma price_dict_lookup_agree pbs pbs' d d' :
  Permutation pbs pbs' -> NoDup (map Quantity pbs) ->
  price_dict_of py_float pbs = Ok d -> price_dict_of py_float pbs' = Ok d' ->
  forall k, dict_get d k = dict_get d' k.
Proof.
  intros Hperm Hnd Hd Hd' k.
  assert (Hnd' : NoDup (map Quantity pbs'))
    by (eapply Permutation_NoDup; [apply Permutation_map; exact Hperm | exact Hnd]).
  destruct (in_dec Z.eq_dec k (map Quantity pbs)) as [Hin | Hout].
  - apply in_map_iff in Hin as [b [<- Hb]].
    destruct (price_dict_from_get _ _ _ _ _ Hd Hnd Hb) as [x [Hx ->]].
    destruct (price_dict_from_get _ _ _ _ _ Hd' Hnd' (Permutation_in _ Hperm Hb))
      as [x' [Hx' ->]].
    congruence.
  - rewrite (price_dict_of_miss _ _ _ _ Hd Hout).
    symmetry. apply (price_dict_of_miss _ _ _ _ Hd').
    intros Hin. apply Hout.
    eapply Permutation_in; [apply Permutation_sym, Permutation_map; exact Hperm |].
    exact Hin.
Qed.

(** X3.  With distinct quantities, the order in which the API lists the
    price breaks does not matter: two lists with the same entries give
    the same price, or the same exception, for every target. *)
Theorem price_break_order_irrelevant pbs pbs' t :
  Permutation pbs pbs' ->
  NoDup (map Quantity pbs) ->
  find_price_for_quantity py_float pbs t = find_price_for_quantity py_float pbs' t.
Proof.
  intros Hperm Hnd. unfold find_price_for_quantity.
  destruct (price_dict_of py_float pbs) as [d | e] eqn:Hd;
    destruct (price_dict_of py_float pbs') as [d' | e'] eqn:Hd'; simpl.
  - apply price_for_ext.
    + now apply (price_dict_lookup_agree pbs pbs').
    + apply (price_dict_from_NoDup _ _ _ _ Hd). constructor.
    + apply (price_dict_from_NoDup _ _ _ _ Hd'). constructor.
  - apply price_dict_from_raise_inv in Hd' as [_ [b [Hb Hnone]]].
    apply Permutation_sym in Hperm.
    unfold price_dict_of in Hd.
    rewrite (price_dict_from_raise pbs b (Permutation_in _ Hperm Hb) Hnone) in Hd.
    discriminate.
  - apply price_dict_from_raise_inv in Hd as [_ [b [Hb Hnone]]].
    unfold price_dict_of in Hd'.
    rewrite (price_dict_from_raise pbs' b (Permutation_in _ Hperm Hb) Hnone) in Hd'.
    discriminate.
  - apply price_dict_from_raise_inv in Hd as [-> _].
    apply price_dict_from_raise_inv in Hd' as [-> _]. reflexivity.
Qed.

(** ** What the greedy pass leaves over *)

Lemma greedy_remainder (d : dict Z float) qs :
  Forall (fun q => 0 < q) qs ->
  forall total remaining total' rest,
    0 <= remaining ->
    greedy d qs total remaining = Ok (total', rest) ->
    0 <= rest <= remaining /\ Forall (fun q => rest < q) qs.
Proof.
  induction 1 as [| q qs Hq Hall IH]; intros total remaining total' rest Hr; simpl.
  - intros [= _ <-]. split; [lia | constructor].
  - destruct (Z.leb_spec q remaining) as [Hle | Hgt].
    + unfold floordiv, modulo. destruct (Z.eqb_spec q 0) as [-> | _]; [lia |].
      simpl. destruct (dict_item d q) as [x |]; simpl; [| discriminate].
      destruct (int_mul_float (remaining / q) x) as [y |]; simpl; [| discriminate].
      intros Hg. pose proof (Z.mod_pos_bound remaining q Hq) as Hmod.
      pose proof (Z.mod_le remaining q Hr Hq) as Hmle.
      destruct (IH _ _ _ _ (proj1 Hmod) Hg) as [Hrest Hbelow].
      split; [lia |]. constructor; [lia | exact Hbelow].
    + intros Hg. destruct (IH _ _ _ _ Hr Hg) as [Hrest Hbelow].
      split; [lia |]. constructor; [lia | exact Hbelow].
Qed.

(** X4.  With positive quantities and a target that is not negative,
    what the greedy pass leaves unpriced is less than every listed
    quantity (and not more than the target): nothing is left when 1 is
    a listed quantity, and otherwise up to the smallest quantity minus
    one units are not charged. *)
Theorem remainder_below_every_break pbs d t total rest :
  price_dict_of py_float pbs = Ok d ->
  Forall (fun b => 0 < Quantity b) pbs ->
  0 <= t ->
  greedy_pass d t = Ok (total, rest) ->
  0 <= rest <= t
  /\ (forall b, In b pbs -> rest < Quantity b)
  /\ (In 1 (map Quantity pbs) -> rest = 0).
Proof.
  intros Hd Hpos Ht Hpass.
  assert (Hkeys : forall q, In q (keys d) <-> In q (map Quantity pbs)).
  { intros q. rewrite (price_dict_from_keys _ _ _ _ q Hd). simpl. tauto. }
  assert (Hqs : Forall (fun q => 0 < q) (sorted_reverse (keys d))).
  { eapply Permutation_Forall; [apply sorted_reverse_perm |].
    apply Forall_forall. intros q Hq. apply Hkeys, in_map_iff in Hq as [b [<- Hb]].
    rewrite Forall_forall in Hpos. now apply Hpos. }
  destruct (greedy_remainder d _ Hqs _ _ _ _ Ht Hpass) as [Hrest Hbelow].
  assert (Hall : forall q, In q (map Quantity pbs) -> rest < q).
  { intros q Hq. apply Hkeys in Hq. rewrite Forall_forall in Hbelow.
    apply Hbelow. eapply Permutation_in; [apply sorted_reverse_perm | exact Hq]. }
  split; [exact Hrest |]. split.
  - intros b Hb. apply Hall. now apply in_map.
  - intros H1. specialize (Hall 1 H1). lia.
Qed.

(** ** A break of quantity zero *)

Lemma greedy_zero (d : dict Z float) qs :
  Forall (fun q => 0 <= q) qs -> In 0 qs ->
  forall total remaining,
    0 <= remaining -> exists e, greedy d qs total remaining = Raise e.
Proof.
  induction 1 as [| q qs Hq Hall IH]; intros Hin total remaining Hr; [destruct Hin |].
  simpl. destruct (Z.eq_dec q 0) as [-> | Hne].
  - destruct (Z.leb_spec 0 remaining); [| lia]. now exists ZeroDivisionError.
  - destruct Hin as [-> | Hin]; [congruence |].
    destruct (q <=? remaining); [| now apply IH].
    unfold floordiv, modulo. destruct (Z.eqb_spec q 0); [contradiction |]. simpl.
    destruct (dict_item d q) as [x | e]; simpl; [| now exists e].
    destruct (int_mul_float (remaining / q) x) as [y | e]; simpl; [| now exists e].
    apply IH; [exact Hin |]. apply Z.mod_pos_bound. lia.
Qed.

(** X5.  A price-break list with a break of quantity 0 (and none
    negative) gives no price for any target from 0 up that is not a
    listed quantity: the function raises, by the division by that
    quantity if not before. *)
Theorem zero_quantity_break_raises pbs t :
  In 0 (map Quantity pbs) ->
  Forall (fun b => 0 <= Quantity b) pbs ->
  0 <= t ->
  ~ In t (map Quantity pbs) ->
  exists e, find_price_for_quantity py_float pbs t = Raise e.
Proof.
  intros Hzero Hnn Ht Hmiss. unfold find_price_for_quantity.
  destruct (price_dict_of py_float pbs) as [d | e] eqn:Hd; simpl; [| now exists e].
  unfold price_for. rewrite (price_dict_of_miss _ _ _ _ Hd Hmiss).
  assert (Hkeys : forall q, In q (keys d) <-> In q (map Quantity pbs)).
  { intros q. rewrite (price_dict_from_keys _ _ _ _ q Hd). simpl. tauto. }
  destruct (greedy_zero d (sorted_reverse (keys d))) with (total := 0%float)
    (remaining := t) as [e He]; try assumption.
  - eapply Permutation_Forall; [apply sorted_reverse_perm |].
    apply Forall_forall. intros q Hq. apply Hkeys, in_map_iff in Hq as [b [<- Hb]].
    rewrite Forall_forall in Hnn. now apply Hnn.
  - eapply Permutation_in; [apply sorted_reverse_perm |]. now apply Hkeys.
  - exists e. unfold greedy_pass. now rewrite He.
Qed.

End MorePriceFacts.

(** The properties above on price breaks read with [float_of_decimal]. *)

Lemma unparsable_price_raises_witness :
  find_price_for_quantity float_of_decimal
    [ {| Quantity := 10; Price := "kr 8,0" |};
      {| Quantity := 100; Price := "call us" |} ] 10
  = Raise ValueError.
Proof.
  apply (unparsable_price_raises float_of_decimal _
           {| Quantity := 100; Price := "call us" |}).
  - simpl. tauto.
  - vm_compute. reflexivity.
Defined.

Lemma last_duplicate_wins_witness :
  exists x,
    float_of_decimal (cleaned "kr 8,0") = Some x
    /\ find_price_for_quantity float_of_decimal
         ([ {| Quantity := 10; Price := "kr 9,0" |} ]
          ++ {| Quantity := 10; Price := "kr 8,0" |}
          :: [ {| Quantity := 100; Price := "kr 6,0" |} ]) 10
       = Ok x.
Proof.
  apply (last_duplicate_wins float_of_decimal
           [ {| Quantity := 10; Price := "kr 9,0" |} ]
           {| Quantity := 10; Price := "kr 8,0" |}
           [ {| Quantity := 100; Price := "kr 6,0" |} ]
           [(10, 8%float); (100, 6%float)]).
  - vm_compute. reflexivity.
  - simpl. intuition discriminate.
Defined.

Lemma price_break_order_irrelevant_witness :
  find_price_for_quantity float_of_decimal example_price_breaks 25
  = find_price_for_quantity float_of_decimal (rev example_price_breaks) 25.
Proof.
  apply price_break_order_irrelevant.
  - apply Permutation_rev.
  - simpl. repeat constructor; simpl; intuition discriminate.
Defined.

Lemma remainder_below_every_break_witness :
  greedy_pass [(10, 8%float); (100, 6%float)] 25 = Ok (16%float, 5)
  /\ 0 <= 5 <= 25
  /\ (forall b,
        In b [ {| Quantity := 10; Price := "kr 8,0" |};
               {| Quantity := 100; Price := "kr 6,0" |} ] ->
        5 < Quantity b).
Proof.
  assert (Hpass : greedy_pass [(10, 8%float); (100, 6%float)] 25 = Ok (16%float, 5))
    by (vm_compute; reflexivity).
  split; [exact Hpass |].
  destruct (remainder_below_every_break float_of_decimal
              [ {| Quantity := 10; Price := "kr 8,0" |};
                {| Quantity := 100; Price := "kr 6,0" |} ]
              [(10, 8%float); (100, 6%float)] 25 16%float 5) as [Hrest [Hbelow _]].
  - vm_compute. reflexivity.
  - repeat constructor.
  - lia.
  - exact Hpass.
  - split; [exact Hrest | exact Hbelow].
Defined.

Lemma zero_quantity_break_raises_witness :
  exists e,
    find_price_for_quantity float_of_decimal
      [ {| Quantity := 0; Price := "kr 1,0" |};
        {| Quantity := 10; Price := "kr 8,0" |} ] 25
    = Raise e.
Proof.
  apply zero_quantity_break_raises.
  - simpl. tauto.
  - repeat constructor; simpl; lia.
  - lia.
  - simpl. intuition discriminate.
Defined.

(* ================================================================== *)
(** * More on the fetch loop                                           *)
(* ================================================================== *)

Lemma skipn_nth_error {A : Type} (l : list A) :
  forall n x, nth_error l n = Some x -> skipn n l = x :: skipn (S n) l.
Proof.
  induction l as [| a l IH]; intros [| n] x; simpl; try discriminate.
  - now intros [= ->].
  - intros Hn. now rewrite (IH n x Hn).
Qed.

Lemma logs_have_no_post events r :
  forallb is_log events = true -> ~ In (Post r) events.
Proof.
  intros Hall Hin. rewrite forallb_forall in Hall.
  specialize (Hall _ Hin). discriminate.
Qed.

Lemma posted_parts_app l1 l2 :
  posted_parts (l1 ++ l2) = posted_parts l1 ++ posted_parts l2.
Proof. unfold posted_parts. apply flat_map_app. Qed.

Lemma posted_parts_post r l :
  posted_parts (Post r :: l) = mouserPartNumber r :: posted_parts l.
Proof. reflexivity. Qed.

Lemma posted_parts_log m l : posted_parts (Log m :: l) = posted_parts l.
Proof. reflexivity. Qed.

Lemma posted_parts_logs events :
  forallb is_log events = true -> posted_parts events = [].
Proof.
  induction events as [| [m | r | z | f] events IH]; simpl; try discriminate; auto.
Qed.

Lemma sleeps_of_logs events :
  forallb is_log events = true -> filter is_sleep events = [].
Proof.
  induction events as [| [m | r | z | f] events IH]; simpl; try discriminate; auto.
Qed.

Section MoreLoopFacts.

Variable net : network.
Variables api_key option_ : string.
Variable parts : list string.

(** One turn, with its events. *)
Lemma step_events st o st' events :
  step net api_key option_ parts st = Some (o, st', events) ->
  nth_error parts (index st) = Some (outcome_part o)
  /\ posted_parts events = [outcome_part o]
  /\ (forall r, In (Post r) events ->
        r = request_for api_key option_ (outcome_part o))
  /\ filter is_sleep events = (if is_soft o then [Sleep 15] else [])
  /\ sent st' = S (sent st)
  /\ index st' = (if is_soft o then index st else S (index st))
  /\ (no_document (net (sent st) (request_for api_key option_ (outcome_part o))) = true ->
      print_error net (sent st) (request_for api_key option_ (outcome_part o)) = None ->
      is_soft o = true).
Proof.
  unfold step. destruct (nth_error parts (index st)) as [p |]; [| discriminate].
  destruct (search_part_number_cases net api_key option_ (sent st) p)
    as [[j [logs [Hcall [Hlogs Hno]]]] | [e [Hcall [_ Hprint]]]];
    rewrite Hcall; unfold loop_body, log_message.
  - pose proof (posted_parts_logs _ Hlogs) as Hposted.
    pose proof (sleeps_of_logs _ Hlogs) as Hsleep.
    assert (Hpost : forall r, In (Post r) logs -> False).
    { intros r. now apply logs_have_no_post. }
    destruct (truthy j) eqn:Hj; intros [= <- <- <-];
      cbn [outcome_part is_soft index sent].
    + repeat split; try congruence.
      * rewrite posted_parts_log, posted_parts_post, Hposted. reflexivity.
      * intros r [[=] | [[= <-] | Hin]];
          [reflexivity | now apply Hpost in Hin].
      * cbn [filter is_sleep]. exact Hsleep.
      * intros Hn _. apply Hno in Hn. congruence.
    + repeat split; try congruence.
      * rewrite posted_parts_log, posted_parts_post, posted_parts_app, Hposted.
        reflexivity.
      * intros r [[=] | [[= <-] | Hin]]; [reflexivity |].
        apply in_app_or in Hin as [Hin | Hin]; [now apply Hpost in Hin |].
        simpl in Hin. intuition discriminate.
      * cbn [filter is_sleep]. rewrite filter_app, Hsleep. reflexivity.
  - intros [= <- <- <-]. cbn [outcome_part is_soft index sent].
    repeat split; try congruence.
    intros r [[=] | [[= <-] | [[=] | []]]]. reflexivity.
Qed.

(** When the loop ends, the turns after which it went on are for the
    identifiers that were left, one turn each and in their order. *)
Lemma while_loop_settled fuel :
  forall st outs final events,
    while_loop net api_key option_ parts fuel st = Some (outs, final, events) ->
    (index st <= List.length parts)%nat ->
    map outcome_part (settled outs) = skipn (index st) parts
    /\ index final = List.length parts.
Proof.
  induction fuel as [| fuel IH]; intros st outs final events; simpl;
    destruct (step net api_key option_ parts st) as [[[o st'] ev] |] eqn:Hstep;
    try discriminate.
  - intros [= <- <- <-] Hle.
    unfold step in Hstep.
    destruct (nth_error parts (index st)) eqn:Hnth; [discriminate |].
    apply nth_error_None in Hnth.
    split; [now rewrite skipn_all2 | lia].
  - destruct (while_loop net api_key option_ parts fuel st')
      as [[[os f] evs] |] eqn:Hloop; [| discriminate].
    intros [= <- <- <-] Hle.
    destruct (step_events _ _ _ _ Hstep) as [Hnth [_ [_ [_ [_ [Hidx _]]]]]].
    assert (Hlt : (index st < List.length parts)%nat)
      by (apply nth_error_Some; congruence).
    unfold settled in *.
    destruct o as [p r | p | p]; simpl in *.
    + destruct (IH _ _ _ _ Hloop) as [Hs Hf]; [lia |].
      split; [| exact Hf]. rewrite Hs, Hidx.
      symmetry. now apply skipn_nth_error.
    + destruct (IH _ _ _ _ Hloop) as [Hs Hf]; [lia |].
      split; [| exact Hf]. now rewrite Hs, Hidx.
    + destruct (IH _ _ _ _ Hloop) as [Hs Hf]; [lia |].
      split; [| exact Hf]. rewrite Hs, Hidx.
      symmetry. now apply skipn_nth_error.
  - intros [= <- <- <-] Hle.
    unfold step in Hstep.
    destruct (nth_error parts (index st)) eqn:Hnth; [discriminate |].
    apply nth_error_None in Hnth.
    split; [now rewrite skipn_all2 | lia].
Qed.

Lemma while_loop_truthy fuel :
  forall st outs final events,
    while_loop net api_key option_ parts fuel st = Some (outs, final, events) ->
    (forall p r, dict_get (results st) p = Some r -> truthy r = true) ->
    forall p r, dict_get (results final) p = Some r -> truthy r = true.
Proof.
  induction fuel as [| fuel IH]; intros st outs final events; simpl;
    destruct (step net api_key option_ parts st) as [[[o st'] ev] |] eqn:Hstep;
    try discriminate; try (intros [= <- <- <-] Hinv; exact Hinv).
  destruct (while_loop net api_key option_ parts fuel st')
    as [[[os f] evs] |] eqn:Hloop; [| discriminate].
  intros [= <- <- <-] Hinv. apply (IH _ _ _ _ Hloop).
  destruct (step_cases _ _ _ _ _ _ _ _ Hstep) as [q [_ [_ [_ Ho]]]].
  destruct Ho as [[r [_ [Hr [Hres _]]]] | [[_ [Hres _]] | [_ [Hres _]]]];
    rewrite Hres; [| exact Hinv | exact Hinv].
  intros p r'. destruct (String.eqb_spec q p) as [-> | Hne].
  - rewrite dict_get_set_same. now intros [= <-].
  - rewrite dict_get_set_other by exact Hne. apply Hinv.
Qed.

(** X6.  When the loop ends it has gone through the whole input: each
    identifier had one turn that ended in a success or in the [except]
    branch, in the order of the input and as often as it stands there,
    and every other turn was a wait; [index] is the length of the
    input; the error list holds the identifiers of the turns that ended
    in the [except] branch; and every identifier of the input keys a
    non-empty document in [results] or stands in the error list. *)
Theorem completed_loop_settles_all fuel first outs final events :
  while_loop net api_key option_ parts fuel (initial_state first)
  = Some (outs, final, events) ->
  map outcome_part (settled outs) = parts
  /\ index final = List.length parts
  /\ api_error_parts final = hard_parts outs
  /\ (forall p, In p parts ->
        (exists r, dict_get (results final) p = Some r /\ truthy r = true)
        \/ In p (api_error_parts final)).
Proof.
  intros Hloop.
  destruct (while_loop_settled _ _ _ _ _ Hloop) as [Hs Hidx]; [simpl; lia |].
  pose proof (while_loop_errors _ _ _ _ _ _ _ _ _ Hloop) as Herr.
  simpl in Hs, Herr. split; [exact Hs |]. split; [exact Hidx |].
  split; [exact Herr |].
  intros p Hp. rewrite <- Hs in Hp.
  apply in_map_iff in Hp as [o [Hpo Ho]].
  unfold settled in Ho. apply filter_In in Ho as [Ho Hsettled].
  destruct o as [q r | q | q]; simpl in Hpo, Hsettled; try discriminate; subst q.
  - left.
    destruct (while_loop_results _ _ _ _ _ _ _ _ _ Hloop) as [_ Hkeys];
      [constructor |].
    assert (Hkey : In p (keys (results final))).
    { apply Hkeys. right. now exists r. }
    destruct (dict_get (results final) p) as [r' |] eqn:Hget;
      [| apply dict_get_None in Hget; contradiction].
    exists r'. split; [reflexivity |].
    apply (while_loop_truthy _ _ _ _ _ Hloop) with (p := p); [| exact Hget].
    simpl. discriminate.
  - right. rewrite Herr. unfold hard_parts. apply in_flat_map.
    exists (HardFailure p). split; [exact Ho | now left].
Qed.

Lemma while_loop_accounting fuel :
  forall st outs final events,
    while_loop net api_key option_ parts fuel st = Some (outs, final, events) ->
    sent final = (sent st + List.length outs)%nat
    /\ posted_parts events = map outcome_part outs
    /\ (forall r, In (Post r) events ->
          exists p, In p parts /\ r = request_for api_key option_ p)
    /\ filter is_sleep events
       = repeat (Sleep 15) (List.length (filter is_soft outs))
    /\ (List.length outs
        = List.length (success_parts outs) + List.length (filter is_soft outs)
          + List.length (hard_parts outs))%nat.
Proof.
  induction fuel as [| fuel IH]; intros st outs final events; simpl;
    destruct (step net api_key option_ parts st) as [[[o st'] ev] |] eqn:Hstep;
    try discriminate;
    try (intros [= <- <- <-]; simpl; repeat split; try lia; intros r []).
  destruct (while_loop net api_key option_ parts fuel st')
    as [[[os f] evs] |] eqn:Hloop; [| discriminate].
  intros [= <- <- <-].
  destruct (step_events _ _ _ _ Hstep)
    as [Hnth [Hposted [Hpost [Hsleep [Hsent _]]]]].
  destruct (IH _ _ _ _ Hloop) as [Hs [Hp [Hr [Hsl Hlen]]]].
  split; [simpl; lia |]. split; [| split; [| split]].
  - unfold posted_parts in *. rewrite flat_map_app, Hposted, Hp. reflexivity.
  - intros r Hin. apply in_app_or in Hin as [Hin | Hin]; [| now apply Hr].
    exists (outcome_part o). split; [| now apply Hpost].
    eapply nth_error_In; exact Hnth.
  - rewrite filter_app, Hsleep, Hsl. simpl.
    destruct (is_soft o); reflexivity.
  - destruct o as [p r | p | p]; simpl in *; lia.
Qed.

(** X7.  Every turn of the loop sends exactly one request, for the
    identifier of that turn; the loop sleeps 15 seconds once per turn
    that ends in the rate-limit branch and never otherwise; so a run
    that ends has sent as many requests as it fetched identifiers, plus
    the number of its waits, plus the number of identifiers it put on
    the error list. *)
Theorem one_request_per_turn fuel st outs final events :
  while_loop net api_key option_ parts fuel st = Some (outs, final, events) ->
  sent final = (sent st + List.length outs)%nat
  /\ posted_parts events = map outcome_part outs
  /\ filter is_sleep events = repeat (Sleep 15) (List.length (filter is_soft outs))
  /\ (List.length (posted_parts events)
      = List.length (success_parts outs) + List.length (filter is_soft outs)
        + List.length (hard_parts outs))%nat.
Proof.
  intros Hloop.
  destruct (while_loop_accounting _ _ _ _ _ Hloop) as [Hs [Hp [_ [Hsl Hlen]]]].
  repeat split; try assumption.
  now rewrite Hp, length_map.
Qed.


Lemma last_success_app p outs1 outs2 before :
  last_success p (outs1 ++ outs2) before
  = last_success p outs2 (last_success p outs1 before).
Proof.
  revert before. induction outs1 as [| [q r | q | q] outs1 IH]; intros before;
    simpl; auto.
Qed.

(** X10.  [results] keeps for an identifier the document of its last
    successful fetch: an identifier that stands twice in the input is
    fetched twice, and the second document replaces the first. *)
Theorem last_fetch_is_kept fuel st outs final events p :
  while_loop net api_key option_ parts fuel st = Some (outs, final, events) ->
  dict_get (results final) p = last_success p outs (dict_get (results st) p).
Proof.
  revert st outs final events.
  induction fuel as [| fuel IH]; intros st outs final events; simpl;
    destruct (step net api_key option_ parts st) as [[[o st'] ev] |] eqn:Hstep;
    try discriminate; try (now intros [= <- <- <-]).
  destruct (while_loop net api_key option_ parts fuel st')
    as [[[os f] evs] |] eqn:Hloop; [| discriminate].
  intros [= <- <- <-]. rewrite (IH _ _ _ _ Hloop).
  destruct (step_cases _ _ _ _ _ _ _ _ Hstep) as [q [_ [_ [_ Ho]]]].
  destruct Ho as [[r [-> [_ [Hres _]]]] | [[-> [Hres _]] | [-> [Hres _]]]];
    rewrite Hres; simpl; [| reflexivity | reflexivity].
  destruct (String.eqb_spec q p) as [-> | Hne].
  - now rewrite dict_get_set_same.
  - now rewrite dict_get_set_other.
Qed.



End MoreLoopFacts.

(** The properties above on the run against [net_limited], on the run
    against [net_garbled], on a network that is down and on one that
    answers. *)

Lemma garbled_run_ends :
  exists events, garbled_run = Some (garbled_outcomes, garbled_final, events).
Proof. eexists. vm_compute. reflexivity. Qed.

Lemma completed_loop_settles_all_witness :
  map outcome_part (settled garbled_outcomes) = example_parts
  /\ index garbled_final = List.length example_parts
  /\ api_error_parts garbled_final = ["511-NE555"]
  /\ (exists r,
        dict_get (results garbled_final) "595-LM358P" = Some r /\ truthy r = true)
  /\ dict_get (results garbled_final) "511-NE555" = None.
Proof.
  destruct garbled_run_ends as [events Hrun].
  destruct (completed_loop_settles_all net_garbled "KEY" "Exact" example_parts
              3 O garbled_outcomes garbled_final events Hrun)
    as [Hs [Hidx [Herr Hall]]].
  split; [exact Hs |]. split; [exact Hidx |]. split; [exact Herr |].
  split; [| reflexivity].
  destruct (Hall "595-LM358P") as [Hr | Hin]; [simpl; tauto | exact Hr |].
  simpl in Hin. destruct Hin as [Hin | []]. discriminate.
Defined.

Lemma one_request_per_turn_witness :
  exists events,
    example_run = Some (example_outcomes, example_final, events)
    /\ sent example_final = 5%nat
    /\ posted_parts events = map outcome_part example_outcomes
    /\ filter is_sleep events = [Sleep 15; Sleep 15].
Proof.
  destruct example_run_ends as [events Hrun].
  exists events. split; [exact Hrun |].
  destruct (one_request_per_turn net_limited "KEY" "Exact" example_parts
              5 (initial_state O) example_outcomes example_final events Hrun)
    as [Hsent [Hposted [Hsleep _]]].
  split; [exact Hsent |]. split; [exact Hposted | exact Hsleep].
Defined.



Lemma last_fetch_is_kept_witness :
  dict_get (results example_final) "595-LM358P"
  = last_success "595-LM358P" example_outcomes None.
Proof.
  destruct example_run_ends as [events Hrun].
  exact (last_fetch_is_kept net_limited "KEY" "Exact" example_parts
           5 (initial_state O) example_outcomes example_final events
           "595-LM358P" Hrun).
Defined.

(* ================================================================== *)
(** * More on the credential                                           *)
(* ================================================================== *)

(** X11.  A key that [get_api_key] returns is never empty.  Taken from
    the configuration file it has no blank at either end; taken from
    the environment it is the variable as it stands, blanks included. *)
Theorem api_key_never_empty environ cfg k :
  fst (APIManager.get_api_key environ cfg) = Ok k ->
  k <> ""
  /\ (APIManager.unset environ = true -> stripped k /\ config_key cfg = Some k)
  /\ (APIManager.unset environ = false -> environ = Some k).
Proof.
  intros Hk. destruct (APIManager.unset environ) eqn:Hunset.
  - pose proof (proj2 (get_api_key_config environ cfg Hunset)) as Hcfg.
    destruct (config_key cfg) as [k' |] eqn:Hck;
      [| destruct Hcfg as [e He]; congruence].
    assert (k' = k) by congruence. subst k'.
    assert (Hne : k <> "" /\ stripped k).
    { revert Hck. unfold config_key.
      destruct cfg as [| | | [| entries |]]; try discriminate.
      destruct (dict_get entries "search_api_key") as [[s |] |]; try discriminate.
      destruct (String.eqb_spec (strip s) ""); [discriminate |].
      intros [= <-]. split; [assumption | apply strip_idem]. }
    split; [apply Hne |]. split; [intros _; split; [apply Hne | reflexivity] |].
    discriminate.
  - destruct environ as [k0 |]; [| discriminate]. simpl in Hunset.
    apply String.eqb_neq in Hunset.
    rewrite (get_api_key_environ k0 cfg Hunset) in Hk. simpl in Hk.
    injection Hk as <-.
    split; [exact Hunset |]. split; [discriminate | reflexivity].
Qed.

(** X12.  [get_api_key] raises only with the environment variable
    absent or empty, and then [FileNotFoundError] exactly when the
    configuration file is missing and the generic [Exception] in every
    other case: the [ValueError] of its own [raise] statements never
    leaves the function. *)
Theorem api_key_exception_classes environ cfg e :
  fst (APIManager.get_api_key environ cfg) = Raise e ->
  APIManager.unset environ = true
  /\ ((e = FileNotFoundError /\ cfg = Missing)
      \/ (exists cause, e = Exception cause /\ cfg <> Missing)).
Proof.
  intros He. destruct (APIManager.unset environ) eqn:Hunset.
  - split; [reflexivity |]. revert He.
    unfold APIManager.get_api_key, APIManager.get_api_key_try. rewrite Hunset.
    destruct cfg as [| | | [| entries |]]; simpl.
    + intros [= <-]. now left.
    + intros [= <-]. right. exists OtherError. split; [reflexivity | discriminate].
    + intros [= <-]. right. exists OtherError. split; [reflexivity | discriminate].
    + intros [= <-]. right. exists ValueError. split; [reflexivity | discriminate].
    + destruct (dict_get entries "search_api_key") as [[s |] |]; simpl.
      * destruct (strip s =? "")%string; [| discriminate].
        intros [= <-]. right. exists ValueError. split; [reflexivity | discriminate].
      * intros [= <-]. right. exists AttributeError.
        split; [reflexivity | discriminate].
      * intros [= <-]. right. exists ValueError. split; [reflexivity | discriminate].
    + intros [= <-]. right. exists AttributeError.
      split; [reflexivity | discriminate].
  - destruct environ as [k0 |]; [| discriminate]. simpl in Hunset.
    apply String.eqb_neq in Hunset.
    rewrite (get_api_key_environ k0 cfg Hunset) in He. discriminate.
Qed.

Lemma api_key_never_empty_witness :
  " abc123 " <> ""
  /\ (APIManager.unset (Some " abc123 ") = false -> Some " abc123 " = Some " abc123 ").
Proof.
  destruct (api_key_never_empty (Some " abc123 ") Missing " abc123 " eq_refl)
    as [Hne [_ Henv]].
  split; [exact Hne | exact Henv].
Defined.

Lemma api_key_exception_classes_witness :
  APIManager.unset None = true
  /\ ((Exception ValueError = FileNotFoundError /\ Loaded (YMapping []) = Missing)
      \/ (exists cause,
            Exception ValueError = Exception cause /\ Loaded (YMapping []) <> Missing)).
Proof.
  exact (api_key_exception_classes None (Loaded (YMapping []))
           (Exception ValueError) eq_refl).
Defined.

(* ================================================================== *)
(** * More on the URLs                                                 *)
(* ================================================================== *)

Lemma datasheet_urls_origin cells :
  forall urls,
    datasheet_urls cells = Ok urls ->
    Forall (fun u => u <> "" /\ stripped u
                     /\ exists cell, In (Some cell) cells /\ u = strip cell) urls
    /\ (forall cell, In (Some cell) cells -> strip cell <> "" -> In (strip cell) urls)
    /\ (List.length urls <= List.length cells)%nat.
Proof.
  induction cells as [| [cell |] cells IH]; intros urls; simpl.
  - intros [= <-]. split; [constructor | split; [intros cell [] | simpl; lia]].
  - destruct (String.eqb_spec (strip cell) "") as [Hblank | Hfull].
    + intros Hrest. destruct (IH _ Hrest) as [Hall [Hin Hlen]].
      split; [| split; [| lia]].
      * eapply Forall_impl; [| exact Hall]. simpl.
        intros u [Hne [Hs [c [Hc Hu]]]]. repeat split; try assumption.
        exists c. split; [now right | exact Hu].
      * intros c [[= ->] | Hc] Hne; [contradiction | now apply Hin].
    + destruct (datasheet_urls cells) as [rest |]; simpl; [| discriminate].
      intros [= <-]. destruct (IH _ eq_refl) as [Hall [Hin Hlen]].
      split; [| split; [| simpl; lia]].
      * constructor.
        -- repeat split; [exact Hfull | apply strip_idem |].
           exists cell. split; [now left | reflexivity].
        -- eapply Forall_impl; [| exact Hall]. simpl.
           intros u [Hne [Hs [c [Hc Hu]]]]. repeat split; try assumption.
           exists c. split; [now right | exact Hu].
      * intros c [[= ->] | Hc] Hne; [now left | right; now apply Hin].
  - discriminate.
Qed.

(** X13.  Every URL that [extract_urls] returns is a ['Datasheet'] cell
    without the blanks around it, and is not empty; with a
    ['Datasheet'] column every cell that is not blank is returned;
    without one the list is empty, whatever the rows are. *)
Theorem extract_urls_stripped file urls events :
  extract_urls file = (Ok urls, events) ->
  Forall (fun u => u <> "" /\ stripped u
                   /\ exists cell, In (Some cell) (Datasheet file) /\ u = strip cell)
    urls
  /\ (forall names cell,
        fieldnames file = Some names -> In "Datasheet" names ->
        In (Some cell) (Datasheet file) -> strip cell <> "" ->
        In (strip cell) urls)
  /\ (forall names,
        fieldnames file = Some names -> ~ In "Datasheet" names -> urls = []).
Proof.
  unfold extract_urls. destruct (fieldnames file) as [names |]; [| discriminate].
  destruct (existsb (String.eqb "Datasheet") names) eqn:Hcol.
  - intros [= Hurls _]. destruct (datasheet_urls_origin _ _ Hurls) as [Hall [Hin _]].
    split; [exact Hall |]. split.
    + intros names' cell _ _. apply Hin.
    + intros names' [= <-] Hno. exfalso. apply Hno.
      apply existsb_exists in Hcol as [c [Hc Heq]].
      apply String.eqb_eq in Heq. now subst c.
  - intros [= <- _]. split; [constructor |]. split; [| reflexivity].
    intros names' cell [= <-] Hin. exfalso.
    assert (Hex : existsb (String.eqb "Datasheet") names = true).
    { apply existsb_exists. exists "Datasheet". split; [exact Hin |].
      apply String.eqb_refl. }
    congruence.
Qed.

Section MoreUrlFacts.

Variable urlparse : string -> result ParseResult.

Lemma supplier_part_origin urls p :
  In p (mouser_part_numbers (fst (extract_part_numbers_from_urls urlparse urls))) ->
  exists url parsed,
    In url urls /\ urlparse url = Ok parsed
    /\ contains "mouser.com" (lower (netloc parsed)) = true
    /\ p = strip (final_segment (path parsed)).
Proof.
  rewrite extract_classified. simpl. intros Hin.
  apply in_flat_map in Hin as [url [Hurl Hp]].
  unfold classify in Hp. destruct (urlparse url) as [parsed |] eqn:Hparse;
    [| destruct Hp].
  destruct (contains "mouser.com" (lower (netloc parsed))) eqn:Hc; [| destruct Hp].
  destruct Hp as [<- | []]. now exists url, parsed.
Qed.

(** X14.  No part number that [extract_part_numbers_from_urls] returns
    has a blank at either end or a slash anywhere. *)
Theorem part_numbers_stripped_no_slash urls :
  Forall (fun p => stripped p /\ has_char "/" p = false)
    (mouser_part_numbers (fst (extract_part_numbers_from_urls urlparse urls))).
Proof.
  apply Forall_forall. intros p Hp.
  destruct (supplier_part_origin urls p Hp) as [url [parsed [_ [_ [_ ->]]]]].
  split; [apply strip_idem |].
  apply has_char_strip, final_segment_no_slash_in.
Qed.

(** X15.  A supplier URL whose path is empty or ends in a slash gives
    the empty part number, which is put on the list like any other. *)
Theorem trailing_slash_gives_empty_part url parsed urls :
  In url urls ->
  urlparse url = Ok parsed ->
  contains "mouser.com" (lower (netloc parsed)) = true ->
  (path parsed = "" \/ exists dir, path parsed = (dir ++ "/")%string) ->
  In "" (mouser_part_numbers (fst (extract_part_numbers_from_urls urlparse urls))).
Proof.
  intros Hin Hparse Hc Hpath. rewrite extract_classified. simpl.
  apply in_flat_map. exists url. split; [exact Hin |].
  unfold classify. rewrite Hparse, Hc.
  destruct Hpath as [-> | [dir ->]]; [now left |].
  rewrite final_segment_trailing_slash. now left.
Qed.

Lemma extract_events_are_logs urls :
  forall acc,
    forallb is_log (snd acc) = true ->
    forallb is_log (snd (fold_left (extract_one urlparse) urls acc)) = true.
Proof.
  induction urls as [| url urls IH]; intros [lists events] Hacc; simpl; [exact Hacc |].
  apply IH. destruct (part_number_of_url urlparse url) as [[p |] | e]; simpl;
    try exact Hacc.
  simpl in Hacc. rewrite forallb_app, Hacc. reflexivity.
Qed.

Lemma report_is_logs header blank l : forallb is_log (report header blank l) = true.
Proof.
  unfold report. destruct l as [| x l]; [reflexivity |].
  unfold log_message. rewrite !forallb_app. simpl.
  assert (H : forallb is_log (flat_map (fun x => [Log (MsgLine x)]) l) = true)
    by (induction l; simpl; auto).
  rewrite H. now destruct blank.
Qed.

Lemma get_api_key_events_no_post environ cfg r :
  ~ In (Post r) (snd (APIManager.get_api_key environ cfg)).
Proof.
  unfold APIManager.get_api_key, APIManager.get_api_key_try.
  destruct (APIManager.unset environ); simpl; intuition discriminate.
Qed.

Lemma extract_urls_events_no_post file r : ~ In (Post r) (snd (extract_urls file)).
Proof.
  unfold extract_urls.
  destruct (fieldnames file) as [names |]; [| intros Hin; exact Hin].
  destruct (existsb (String.eqb "Datasheet") names); intros Hin;
    cbn [snd log_message In] in Hin;
    [destruct Hin | destruct Hin as [Hin | []]; discriminate].
Qed.

Variable environ : option string.
Variable cfg : config_file.
Variable net : network.
Variable file : csv_file.
Variable option_ : string.

(** The part numbers of a run come from cells of the CSV. *)
Lemma part_number_of_cell urls events p :
  extract_urls file = (Ok urls, events) ->
  In p (mouser_part_numbers (fst (extract_part_numbers_from_urls urlparse urls))) ->
  exists cell parsed,
    In (Some cell) (Datasheet file)
    /\ urlparse (strip cell) = Ok parsed
    /\ contains "mouser.com" (lower (netloc parsed)) = true
    /\ p = strip (final_segment (path parsed)).
Proof.
  intros Hurls Hp.
  destruct (supplier_part_origin urls p Hp) as [url [parsed [Hurl [Hparse [Hc ->]]]]].
  assert (Hcell : exists cell, In (Some cell) (Datasheet file) /\ url = strip cell).
  { revert Hurls. unfold extract_urls.
    destruct (fieldnames file) as [names |]; [| discriminate].
    destruct (existsb (String.eqb "Datasheet") names).
    - intros [= Hd _]. destruct (datasheet_urls_origin _ _ Hd) as [Hall _].
      rewrite Forall_forall in Hall. now destruct (Hall url Hurl) as [_ [_ Hex]].
    - intros [= <- _]. destruct Hurl. }
  destruct Hcell as [cell [Hcell ->]]. now exists cell, parsed.
Qed.

(** X16.  The keys of the result set of a run are pairwise distinct part
    numbers of supplier URLs of the CSV: each is the final path segment,
    without the blanks around it, of the URL of a ['Datasheet'] cell
    whose network location contains the marker. *)
Theorem result_keys_are_supplier_parts fuel results events :
  read_csv_and_search_parts urlparse environ cfg net file option_ fuel
  = Some (Ok results, events) ->
  NoDup (keys results)
  /\ forall k, In k (keys results) ->
       stripped k
       /\ exists cell parsed,
            In (Some cell) (Datasheet file)
            /\ urlparse (strip cell) = Ok parsed
            /\ contains "mouser.com" (lower (netloc parsed)) = true
            /\ k = strip (final_segment (path parsed)).
Proof.
  unfold read_csv_and_search_parts.
  destruct (APIManager.get_api_key environ cfg) as [[api_key | e] ev0];
    [| discriminate].
  destruct (extract_urls file) as [[urls | e] ev1] eqn:Hurls; [| discriminate].
  destruct urls as [| url urls].
  { intros [= <- _]. split; [constructor | intros k []]. }
  destruct (extract_part_numbers_from_urls urlparse (url :: urls))
    as [lists ev2] eqn:Hlists.
  destruct (while_loop net api_key option_ (mouser_part_numbers lists) fuel
              (initial_state 0)) as [[[outs final] ev4] |] eqn:Hloop;
    [| discriminate].
  intros [= <- _].
  destruct (while_loop_results _ _ _ _ _ _ _ _ _ Hloop) as [Hnd Hkeys];
    [constructor |].
  split; [exact Hnd |]. intros k Hk.
  apply Hkeys in Hk as [[] | [r Hr]].
  destruct (while_loop_settled _ _ _ _ _ _ _ _ _ Hloop) as [Hs _]; [simpl; lia |].
  simpl in Hs.
  assert (Hp : In k (mouser_part_numbers lists)).
  { rewrite <- Hs. apply in_map_iff. exists (Success k r).
    split; [reflexivity |]. unfold settled. apply filter_In. now split. }
  replace lists with (fst (extract_part_numbers_from_urls urlparse (url :: urls)))
    in Hp by now rewrite Hlists.
  destruct (part_number_of_cell _ _ _ Hurls Hp) as [cell [parsed [Hc [Hpa [Hm ->]]]]].
  split; [apply strip_idem |]. now exists cell, parsed.
Qed.

(** X17.  A run sends requests for nothing but the part numbers of the
    supplier URLs of the CSV, each with the key that [get_api_key]
    returned and the search option it was given: no request goes out
    for a URL of another site or one that does not parse, and none
    before the key is there. *)
Theorem requests_only_for_supplier_parts fuel r events req :
  read_csv_and_search_parts urlparse environ cfg net file option_ fuel
  = Some (r, events) ->
  In (Post req) events ->
  fst (APIManager.get_api_key environ cfg) = Ok (apiKey req)
  /\ partSearchOptions req = option_
  /\ exists cell parsed,
       In (Some cell) (Datasheet file)
       /\ urlparse (strip cell) = Ok parsed
       /\ contains "mouser.com" (lower (netloc parsed)) = true
       /\ mouserPartNumber req = strip (final_segment (path parsed)).
Proof.
  unfold read_csv_and_search_parts.
  pose proof (get_api_key_events_no_post environ cfg req) as Hno0.
  destruct (APIManager.get_api_key environ cfg) as [[api_key | e] ev0];
    simpl in Hno0; [| intros [= _ <-] Hin; contradiction].
  pose proof (extract_urls_events_no_post file req) as Hno1.
  destruct (extract_urls file) as [[urls | e] ev1] eqn:Hurls; simpl in Hno1.
  2: { intros [= _ <-] Hin. apply in_app_or in Hin. tauto. }
  destruct urls as [| url urls].
  { intros [= _ <-] Hin. rewrite !in_app_iff in Hin. simpl in Hin.
    intuition discriminate. }
  pose proof (extract_events_are_logs (url :: urls)
                ({| mouser_part_numbers := []; non_mouser_urls := [];
                    error_urls := [] |}, []) eq_refl) as Hlog2.
  fold (extract_part_numbers_from_urls urlparse (url :: urls)) in Hlog2.
  destruct (extract_part_numbers_from_urls urlparse (url :: urls))
    as [lists ev2] eqn:Hlists. simpl in Hlog2.
  destruct (while_loop net api_key option_ (mouser_part_numbers lists) fuel
              (initial_state 0)) as [[[outs final] ev4] |] eqn:Hloop;
    [| discriminate].
  intros [= _ <-] Hin. rewrite !in_app_iff in Hin.
  destruct Hin as [Hin | [Hin | [Hin | [[Hin | Hin] | [Hin | Hin]]]]];
    try contradiction;
    try (exfalso; revert Hin; apply logs_have_no_post;
         first [exact Hlog2 | apply report_is_logs]).
  destruct (while_loop_accounting _ _ _ _ _ _ _ _ _ Hloop) as [_ [_ [Hposts _]]].
  destruct (Hposts req Hin) as [p [Hp ->]].
  split; [reflexivity |]. split; [reflexivity |].
  replace lists with (fst (extract_part_numbers_from_urls urlparse (url :: urls)))
    in Hp by now rewrite Hlists.
  exact (part_number_of_cell _ _ _ Hurls Hp).
Qed.

End MoreUrlFacts.

(** The properties above on the BOM of three rows. *)

Lemma extract_urls_stripped_witness :
  Forall (fun u => u <> "" /\ stripped u
                   /\ exists cell, In (Some cell) (Datasheet example_csv)
                                   /\ u = strip cell)
    [ "https://www.mouser.com/ProductDetail/595-LM358P";
      "https://www.ti.com/product/LM358";
      "http://[::1/LM358" ].
Proof.
  refine (proj1 (extract_urls_stripped example_csv _ [] _)).
  vm_compute. reflexivity.
Defined.

Lemma trailing_slash_gives_empty_part_witness :
  In "" (mouser_part_numbers
           (fst (extract_part_numbers_from_urls urlparse_model
                   ["https://www.mouser.com/ProductDetail/"]))).
Proof.
  apply (trailing_slash_gives_empty_part urlparse_model
           "https://www.mouser.com/ProductDetail/"
           {| scheme := "https"; netloc := "www.mouser.com";
              path := "/ProductDetail/"; params := ""; query := "";
              fragment := "" |}).
  - simpl. tauto.
  - vm_compute. reflexivity.
  - vm_compute. reflexivity.
  - right. now exists "/ProductDetail".
Defined.

Lemma result_keys_are_supplier_parts_witness :
  NoDup (keys [("595-LM358P", found)])
  /\ forall k, In k (keys [("595-LM358P", found)]) ->
       stripped k
       /\ exists cell parsed,
            In (Some cell) (Datasheet example_csv)
            /\ urlparse_model (strip cell) = Ok parsed
            /\ contains "mouser.com" (lower (netloc parsed)) = true
            /\ k = strip (final_segment (path parsed)).
Proof.
  destruct three_row_bom as [events [Hrun _]].
  exact (result_keys_are_supplier_parts urlparse_model (Some "KEY") Missing
           net_up example_csv "Exact" 1 _ events Hrun).
Defined.

Lemma requests_only_for_supplier_parts_witness :
  fst (APIManager.get_api_key (Some "KEY") Missing) = Ok "KEY"
  /\ exists cell parsed,
       In (Some cell) (Datasheet example_csv)
       /\ urlparse_model (strip cell) = Ok parsed
       /\ contains "mouser.com" (lower (netloc parsed)) = true
       /\ "595-LM358P" = strip (final_segment (path parsed)).
Proof.
  destruct three_row_bom as [events [Hrun [Hposts _]]].
  assert (Hin : In (Post (request_for "KEY" "Exact" "595-LM358P")) events).
  { apply (proj1 (filter_In is_post _ events)). rewrite Hposts. now left. }
  destruct (requests_only_for_supplier_parts urlparse_model (Some "KEY") Missing
              net_up example_csv "Exact" 1 _ events _ Hrun Hin)
    as [Hkey [_ Hcell]].
  split; [exact Hkey | exact Hcell].
Defined.

(* ================================================================== *)
(** * The export                                                       *)
(* ================================================================== *)

Section ExportFacts.

Variable urlparse : string -> result ParseResult.
Variable py_float : string -> option float.
Variable format_2f : float -> string.

Lemma update_get_other columns :
  forall (r : row) c,
    ~ In c (map fst columns) -> dict_get (update r columns) c = dict_get r c.
Proof.
  unfold update.
  induction columns as [| [k v] columns IH]; intros r c Hc; simpl; [reflexivity |].
  rewrite IH by (simpl in Hc; tauto).
  apply dict_get_set_other. simpl in Hc. tauto.
Qed.

Lemma price_columns_keys price_breaks columns :
  price_columns py_float format_2f price_breaks = Ok columns ->
  map fst columns = price_fieldnames.
Proof.
  unfold price_columns.
  destruct (find_price_for_quantity py_float price_breaks 1); simpl; [| discriminate].
  destruct (find_price_for_quantity py_float price_breaks 10); simpl; [| discriminate].
  destruct (find_price_for_quantity py_float price_breaks 100); simpl; [| discriminate].
  destruct (find_price_for_quantity py_float price_breaks 1000); simpl; [| discriminate].
  now intros [= <-].
Qed.

Lemma priced_row_keeps results (r w : row) :
  priced_row urlparse py_float format_2f results r = Ok w ->
  forall c, ~ In c price_fieldnames -> dict_get w c = dict_get r c.
Proof.
  unfold priced_row.
  destruct (dict_item r "Datasheet") as [cell |]; simpl; [| discriminate].
  destruct (urlparse cell) as [parsed |]; simpl; [| discriminate].
  destruct (index_last (split "/" (path parsed))) as [part_number |]; simpl;
    [| discriminate].
  destruct (dict_get results part_number) as [response |]; [| now intros [= <-]].
  destruct (parts_of response) as [| part others]; [now intros [= <-] |].
  destruct (price_columns py_float format_2f _) as [columns |] eqn:Hcols; simpl;
    [| discriminate].
  intros [= <-] c Hc. apply update_get_other.
  now rewrite (price_columns_keys _ _ Hcols).
Qed.

Lemma writerow_same fieldnames (r w : row) : writerow fieldnames r = Ok w -> w = r.
Proof. unfold writerow. destruct (forallb _ _); [now intros [= <-] | discriminate]. Qed.

Lemma skipped_kept exclude r b :
  skipped exclude r = Ok b -> kept exclude r = negb b.
Proof.
  unfold skipped, kept, dict_item. destruct exclude; simpl; [| now intros [= <-]].
  destruct (dict_get r "Datasheet"); simpl; [now intros [= <-] | discriminate].
Qed.

Lemma write_rows_written fieldnames exclude results input_data :
  forall written,
    write_rows urlparse py_float format_2f fieldnames exclude results input_data
    = (written, None) ->
    Forall2 (fun r w => forall c, ~ In c price_fieldnames ->
                                  dict_get w c = dict_get r c)
      (filter (kept exclude) input_data) written.
Proof.
  induction input_data as [| r rest IH]; intros written; simpl.
  - intros [= <-]. constructor.
  - destruct (skipped exclude r) as [[|] |] eqn:Hskip; [| | discriminate].
    + rewrite (skipped_kept _ _ _ Hskip). simpl. apply IH.
    + rewrite (skipped_kept _ _ _ Hskip). simpl.
      destruct (priced_row urlparse py_float format_2f results r) as [r' |] eqn:Hrow;
        simpl; [| discriminate].
      destruct (writerow fieldnames r') as [w |] eqn:Hw; [| discriminate].
      apply writerow_same in Hw. subst w.
      destruct (write_rows urlparse py_float format_2f fieldnames exclude results rest)
        as [written' raised] eqn:Hrest.
      intros [= <- ->]. constructor; [| now apply IH].
      now apply (priced_row_keeps results).
Qed.

(** X18.  When the export ends without an exception, it has written one
    row for each row of the input it does not skip, in the order of the
    input, and every column of a written row other than the four price
    columns holds what the input row holds.  Without the flag no row is
    skipped; with it no written row has an empty, blank or tilde
    ['Datasheet']. *)
Theorem export_rows_written results file exclude written :
  extract_prices_and_save_to_csv urlparse py_float format_2f results file exclude
  = (written, None) ->
  Forall2 (fun r w => forall c, ~ In c price_fieldnames ->
                                dict_get w c = dict_get r c)
    (filter (kept exclude) (rows file)) written
  /\ (exclude = false -> List.length written = List.length (rows file))
  /\ (exclude = true ->
      forall w cell, In w written -> dict_get w "Datasheet" = Some cell ->
                     invalid_url cell = false).
Proof.
  unfold extract_prices_and_save_to_csv.
  destruct (header file) as [names |]; [| discriminate].
  intros Hrun. pose proof (write_rows_written _ _ _ _ _ Hrun) as Hall.
  split; [exact Hall |]. split.
  - intros ->.
    assert (Hall' : filter (kept false) (rows file) = rows file)
      by (clear; induction (rows file) as [| r l IH]; simpl; congruence).
    rewrite Hall' in Hall. apply Forall2_length in Hall. symmetry. exact Hall.
  - intros -> w cell Hw Hcell.
    assert (Hsrc : exists r, In r (filter (kept true) (rows file))
                             /\ dict_get r "Datasheet" = Some cell).
    { clear Hrun. induction Hall as [| r w' l l' Hrw Hall IH]; [destruct Hw |].
      destruct Hw as [-> | Hw].
      - exists r. split; [now left |]. rewrite <- Hrw; [exact Hcell |].
        simpl. intuition discriminate.
      - destruct (IH Hw) as [r0 [Hr0 Hc0]]. exists r0. split; [now right | exact Hc0]. }
    destruct Hsrc as [r [Hr Hc]]. apply filter_In in Hr as [_ Hkept].
    unfold kept in Hkept. rewrite Hc in Hkept. simpl in Hkept.
    now destruct (invalid_url cell).
Qed.

(** X19.  The export looks a row up under the final path segment of its
    URL as it stands, blanks included, while the keys of the result set
    have none: a row whose segment has a blank at either end gets no
    price, though its part was fetched. *)
Theorem padded_segment_not_priced (results : dict string search_response)
  (r : row) cell parsed :
  Forall stripped (keys results) ->
  dict_get r "Datasheet" = Some cell ->
  urlparse cell = Ok parsed ->
  ~ stripped (final_segment (path parsed)) ->
  priced_row urlparse py_float format_2f results r = Ok r.
Proof.
  intros Hkeys Hcell Hparse Hpad.
  unfold priced_row, dict_item. rewrite Hcell. simpl. rewrite Hparse. simpl.
  rewrite index_last_split. simpl.
  destruct (dict_get results (final_segment (path parsed))) as [response |] eqn:Hget;
    [| reflexivity].
  exfalso. apply Hpad. rewrite Forall_forall in Hkeys. apply Hkeys.
  apply dict_get_In in Hget. now apply (in_map fst) in Hget.
Qed.

Lemma write_rows_raises fieldnames exclude results input_data r e :
  In r input_data ->
  skipped exclude r = Ok false ->
  (r' <- priced_row urlparse py_float format_2f results r ;; writerow fieldnames r')
  = Raise e ->
  exists written e',
    write_rows urlparse py_float format_2f fieldnames exclude results input_data
    = (written, Some e')
    /\ (List.length written < List.length input_data)%nat.
Proof.
  intros Hin Hskip Hraise.
  induction input_data as [| r0 rest IH]; [destruct Hin |]. simpl.
  destruct (skipped exclude r0) as [[|] | e0] eqn:Hskip0.
  - destruct Hin as [-> | Hin]; [congruence |].
    destruct (IH Hin) as [written [e' [-> Hlen]]].
    exists written, e'. split; [reflexivity | lia].
  - destruct (r' <- priced_row urlparse py_float format_2f results r0 ;;
              writerow fieldnames r') as [w | e0] eqn:Hrow0.
    + destruct Hin as [-> | Hin]; [congruence |].
      destruct (IH Hin) as [written [e' [-> Hlen]]].
      exists (w :: written), e'. split; [reflexivity | simpl; lia].
    + exists [], e0. split; [reflexivity | simpl; lia].
  - exists [], e0. split; [reflexivity | simpl; lia].
Qed.

(** X20.  One URL on which [urlparse] raises ends the export with an
    exception and with fewer rows written than read: the export does
    not catch what the search of the part numbers catches and logs. *)
Theorem export_aborts_on_unparsable_url results file exclude r cell e :
  In r (rows file) ->
  dict_get r "Datasheet" = Some cell ->
  (exclude = true -> invalid_url cell = false) ->
  urlparse cell = Raise e ->
  exists written e',
    extract_prices_and_save_to_csv urlparse py_float format_2f results file exclude
    = (written, Some e')
    /\ (List.length written < List.length (rows file))%nat.
Proof.
  intros Hin Hcell Hvalid Hparse. unfold extract_prices_and_save_to_csv.
  destruct (header file) as [names |].
  - destruct (write_rows_raises (names ++ price_fieldnames) exclude results
                (rows file) r e Hin) as [written [e' [Hrun Hlen]]].
    + unfold skipped, dict_item. rewrite Hcell.
      destruct exclude; [| reflexivity]. simpl. now rewrite Hvalid.
    + unfold priced_row, dict_item. rewrite Hcell. simpl. now rewrite Hparse.
    + exists written, e'. split; [exact Hrun | exact Hlen].
  - exists [], TypeError. split; [reflexivity |].
    destruct (rows file); [destruct Hin | simpl; lia].
Qed.

(** X21.  One row whose part was found but comes without price breaks
    ends the export with an exception: the resolver raises on the empty
    list, and nothing catches it. *)
Theorem export_aborts_on_part_without_prices results file exclude r cell parsed
  response part others :
  In r (rows file) ->
  dict_get r "Datasheet" = Some cell ->
  (exclude = true -> invalid_url cell = false) ->
  urlparse cell = Ok parsed ->
  dict_get results (final_segment (path parsed)) = Some response ->
  parts_of response = part :: others ->
  (PriceBreaks part = None \/ PriceBreaks part = Some []) ->
  exists written e',
    extract_prices_and_save_to_csv urlparse py_float format_2f results file exclude
    = (written, Some e')
    /\ (List.length written < List.length (rows file))%nat.
Proof.
  intros Hin Hcell Hvalid Hparse Hget Hparts Hbreaks.
  unfold extract_prices_and_save_to_csv.
  destruct (header file) as [names |].
  - apply (write_rows_raises (names ++ price_fieldnames) exclude results
             (rows file) r IndexError Hin).
    + unfold skipped, dict_item. rewrite Hcell.
      destruct exclude; [| reflexivity]. simpl. now rewrite Hvalid.
    + unfold priced_row, dict_item. rewrite Hcell. simpl. rewrite Hparse. simpl.
      rewrite index_last_split. simpl. rewrite Hget, Hparts.
      now destruct Hbreaks as [-> | ->].
  - exists [], TypeError. split; [reflexivity |].
    destruct (rows file); [destruct Hin | simpl; lia].
Qed.

End ExportFacts.

(** The export on the BOM of three rows, read with [urlparse_model],
    [float_of_decimal] and [format_2f_whole]. *)

Lemma example_export :
  extract_prices_and_save_to_csv urlparse_model float_of_decimal format_2f_whole
    example_responses example_bom true
  = ([ [ ("Reference", "U1");
         ("Datasheet", "https://www.mouser.com/ProductDetail/595-LM358P");
         ("Price for 1", "10.00"); ("Price for 10", "8.00");
         ("Price for 100", "6.00"); ("Price for 1000", "60.00") ] ],
     None).
Proof. vm_compute. reflexivity. Qed.

Lemma export_rows_written_witness :
  Forall2 (fun r w => forall c, ~ In c price_fieldnames ->
                                dict_get w c = dict_get r c)
    (filter (kept true) (rows example_bom))
    [ [ ("Reference", "U1");
        ("Datasheet", "https://www.mouser.com/ProductDetail/595-LM358P");
        ("Price for 1", "10.00"); ("Price for 10", "8.00");
        ("Price for 100", "6.00"); ("Price for 1000", "60.00") ] ].
Proof.
  exact (proj1 (export_rows_written urlparse_model float_of_decimal format_2f_whole
                  example_responses example_bom true _ example_export)).
Defined.

Lemma padded_segment_not_priced_witness :
  priced_row urlparse_model float_of_decimal format_2f_whole
    [ ("ABC", {| SearchResults :=
                   Some {| Parts := Some [ {| PriceBreaks := Some example_price_breaks |} ] |} |}) ]
    [ ("Datasheet", "https://www.mouser.com/ProductDetail/ABC ?x=1") ]
  = Ok [ ("Datasheet", "https://www.mouser.com/ProductDetail/ABC ?x=1") ].
Proof.
  apply (padded_segment_not_priced urlparse_model float_of_decimal format_2f_whole
           _ _ "https://www.mouser.com/ProductDetail/ABC ?x=1"
           {| scheme := "https"; netloc := "www.mouser.com";
              path := "/ProductDetail/ABC "; params := ""; query := "x=1";
              fragment := "" |}).
  - repeat constructor.
  - reflexivity.
  - vm_compute. reflexivity.
  - unfold stripped. vm_compute. discriminate.
Defined.

Lemma export_aborts_on_unparsable_url_witness :
  exists written e',
    extract_prices_and_save_to_csv urlparse_model float_of_decimal format_2f_whole
      example_responses
      {| header := Some ["Datasheet"];
         rows := [ [ ("Datasheet", "http://[::1/LM358") ] ] |} false
    = (written, Some e')
    /\ (List.length written < 1)%nat.
Proof.
  apply (export_aborts_on_unparsable_url urlparse_model float_of_decimal
           format_2f_whole example_responses
           {| header := Some ["Datasheet"];
              rows := [ [ ("Datasheet", "http://[::1/LM358") ] ] |} false
           [ ("Datasheet", "http://[::1/LM358") ] "http://[::1/LM358" ValueError).
  - simpl. tauto.
  - reflexivity.
  - discriminate.
  - vm_compute. reflexivity.
Defined.

Lemma export_aborts_on_part_without_prices_witness :
  exists written e',
    extract_prices_and_save_to_csv urlparse_model float_of_decimal format_2f_whole
      [ ("595-LM358P",
         {| SearchResults := Some {| Parts := Some [ {| PriceBreaks := Some [] |} ] |} |}) ]
      example_bom true
    = (written, Some e')
    /\ (List.length written < List.length (rows example_bom))%nat.
Proof.
  apply (export_aborts_on_part_without_prices urlparse_model float_of_decimal
           format_2f_whole _ example_bom true
           [ ("Reference", "U1");
             ("Datasheet", "https://www.mouser.com/ProductDetail/595-LM358P") ]
           "https://www.mouser.com/ProductDetail/595-LM358P"
           {| scheme := "https"; netloc := "www.mouser.com";
              path := "/ProductDetail/595-LM358P"; params := ""; query := "";
              fragment := "" |}
           {| SearchResults := Some {| Parts := Some [ {| PriceBreaks := Some [] |} ] |} |}
           {| PriceBreaks := Some [] |} []).
  - simpl. tauto.
  - reflexivity.
  - intros _. vm_compute. reflexivity.
  - vm_compute. reflexivity.
  - vm_compute. reflexivity.
  - reflexivity.
  - now right.
Defined.
